(** * ArcGIS map widget: a shallow embedding of the JavaScript view code

    Sources embedded here:
    - [arcgis-map-ipywidget-view.js]: the widget view ([_displayErrorBox],
      [custom_msg_changed], [zoom_changed], [scale_changed], the stationary
      callbacks, [add_notype_layer], [layers_to_remove_changed],
      [getGraphicsLayer], [getActiveImageOverlayLayer],
      [portal_token_changed], [get_portal_token], [authenticate_to_portal],
      the time slider handlers);
    - [layer-utils/get-image-overlay-layer-type.js]:
      [tryRemoveImageOverlays];
    - [layer-utils/infer-no-type-layer.js]: [inferNoTypeLayer];
    - [arcgis-map-ipywidget-model.js]: the attribute defaults.

    Conventions.  JavaScript objects with a fixed set of fields are records
    whose optional fields are [option]s ([None] is [undefined]); strings are
    ASCII strings; [console.log] tracing is left out, [console.warn] is kept
    where the error sink writes to it.  Promises are modelled by the way they
    settle; the outcome of every call into the vendor library is an input of
    the model.  The map is the exception: its layers are a forest, searched
    by [findLayerById] through the group layers and changed by [add] and
    [remove] at the top only. *)

From Stdlib Require Import Ascii QArith SpecFloat.
From stdpp Require Import gmap strings list fin_maps.
From Equations.Prop Require Import Equations Logic.

Local Open Scope string_scope.

(** ** Image overlays ([get-image-overlay-layer-type.js]) *)

Module ImageOverlayLayer.

(** One entry of [_imagesToOverlay], as [tryOverlayImage] adds it. *)
Record overlay := Overlay {
  id : string;
  imgEl : string;
  extent : string;
  opacity : Q
}.

(** [imageOverlaysToRemove.includes(existingOverlay.id)] *)
Definition includes (imageOverlaysToRemove : list string) (x : string) : bool :=
  bool_decide (x ∈ imageOverlaysToRemove).

(** The [for(i=0; i<this._imagesToOverlay.length; i++)] loop, started at
    index [i]: [getItemAt(i)] is the list lookup, [removeAt(i)] deletes
    position [i], and the length is read again on every round. *)
Equations? removal_loop (imageOverlaysToRemove : list string)
    (imagesToOverlay : list overlay) (i : nat) : list overlay
    by wf (length imagesToOverlay - i) lt :=
  removal_loop imageOverlaysToRemove imagesToOverlay i
    with inspect (imagesToOverlay !! i) => {
    | exist _ None _ := imagesToOverlay
    | exist _ (Some existingOverlay) Hget
        with includes imageOverlaysToRemove (id existingOverlay) => {
        | true := removal_loop imageOverlaysToRemove
                    (delete i imagesToOverlay) (S i)
        | false := removal_loop imageOverlaysToRemove imagesToOverlay (S i) } }.
Proof.
  all: apply lookup_lt_Some in Hget.
  - rewrite length_delete by eauto using lookup_lt_is_Some_2. lia.
  - lia.
Qed.

Definition tryRemoveImageOverlays (imageOverlaysToRemove : list string)
    (imagesToOverlay : list overlay) : list overlay :=
  removal_loop imageOverlaysToRemove imagesToOverlay 0.

End ImageOverlayLayer.

(** ** Removing layers from the map ([layers_to_remove_changed]) *)

Module LayerRemoval.

#[local] Unset Elimination Schemes.

(** What the widget reads of a layer held by the map: its [id].  A group
    layer holds layers of its own in [layers]; any other layer has none.
    The model covers the map's operational layers, [map.layers].  A
    reference to a layer is the path that leads to it: the position of a
    layer of the map's own collection, followed by the positions inside the
    group layers passed on the way down. *)
Inductive layer := Layer {
  id : string;
  url : option string;
  layers : list layer
}.
#[local] Set Elimination Schemes.

(** The first layer of the collection, in its order, for which [within]
    finds something; [i] is the position of the collection's first layer. *)
Definition find_from (within : layer → option (list nat * layer)) :=
  fix go (i : nat) (collection : list layer) : option (list nat * layer) :=
    match collection with
    | [] => None
    | l :: rest =>
        match within l with
        | Some (path, found) => Some (i :: path, found)
        | None => go (S i) rest
        end
    end.

(** The search in one layer: the layer itself, then the layers it holds. *)
Fixpoint find_in (layerId : string) (l : layer) : option (list nat * layer) :=
  if String.eqb (id l) layerId then Some ([], l)
  else find_from (find_in layerId) 0 (layers l).

(** [this.map.findLayerById(layerId)]: the first layer bearing the id among
    the layers of the map and, below a group layer, the layers it holds. *)
Definition findLayerById (collection : list layer) (layerId : string)
    : option (list nat * layer) :=
  find_from (find_in layerId) 0 collection.

(** A layer and every layer below it, the layer first. *)
Fixpoint with_descendants (l : layer) : list layer :=
  l :: (layers l ≫= with_descendants).

(** [map.allLayers]: the layers of the map with the layers the group
    layers hold. *)
Definition allLayers (collection : list layer) : list layer :=
  collection ≫= with_descendants.

(** The layers held by group layers: those [map.remove] cannot remove. *)
Definition nested (collection : list layer) : list layer :=
  collection ≫= (fun l => layers l ≫= with_descendants).

(** The layer a path leads to. *)
Fixpoint layer_at (collection : list layer) (path : list nat) : option layer :=
  match path with
  | [] => None
  | i :: rest =>
      match collection !! i with
      | Some l =>
          match rest with
          | [] => Some l
          | _ => layer_at (layers l) rest
          end
      | None => None
      end
  end.

(** The layer a path leads to from a layer: the empty path stays. *)
Definition descend (l : layer) (path : list nat) : option layer :=
  match path with
  | [] => Some l
  | _ => layer_at (layers l) path
  end.

(** [this.map.remove(layer)]: the layer is taken out of the map's own
    collection.  A layer held by a group layer is not in that collection,
    and the call leaves the map as it is. *)
Definition remove (path : list nat) (collection : list layer) : list layer :=
  match path with
  | [i] => delete i collection
  | _ => collection
  end.

(** The [do { ... } while(layerExistsOnMap)] loop for one [layerId].
    [fuel] bounds the number of times the body runs: the result is [None]
    while the loop has not come to its end. *)
Fixpoint remove_while_exists (fuel : nat) (layerId : string)
    (collection : list layer) : option (list layer) :=
  match fuel with
  | O => None
  | S fuel =>
      match findLayerById collection layerId with
      | Some (path, _) =>
          remove_while_exists fuel layerId (remove path collection)
      | None => Some collection
      end
  end.

(** [for(var i in _layers_to_remove)] over the do-while loop. *)
Fixpoint remove_each (fuel : nat) (_layers_to_remove : list string)
    (collection : list layer) : option (list layer) :=
  match _layers_to_remove with
  | [] => Some collection
  | layerId :: rest =>
      match remove_while_exists fuel layerId collection with
      | Some collection => remove_each fuel rest collection
      | None => None
      end
  end.

(** The slice of the widget the handler touches: the map's layers and the
    [_layers_to_remove] attribute of the model. *)
Record widget := Widget {
  map_layers : list layer;
  _layers_to_remove : list string
}.

(** The handler returns once every loop has come to its end. *)
Definition layers_to_remove_changed (fuel : nat) (w : widget) : option widget :=
  match remove_each fuel (_layers_to_remove w) (map_layers w) with
  | Some collection =>
      Some {| map_layers := collection;
              _layers_to_remove := _layers_to_remove w |}
  | None => None
  end.

End LayerRemoval.

(** ** The layer type dispatcher ([infer-no-type-layer.js]) *)

Module InferNoTypeLayer.

(** Values the dispatcher copies around without looking inside. *)
Inductive jsval :=
| JUndefined
| JNumber (q : Q)
| JString (s : string)
| JOpaque (json : string).

(** How a promise of the vendor library or of a helper settles. *)
Inductive settled (A : Type) :=
| Fulfilled (a : A)
| Failed (err : string)
| Pending.
Arguments Fulfilled {A} a.
Arguments Failed {A} err.
Arguments Pending {A}.

(** *** The untyped layer descriptor *)

Record renderer_object := RendererObject {
  r_type : option string;
  r_renderer : option string;
  r_json : string
}.

(** A [renderer] field holds a renderer name or a renderer object. *)
Inductive renderer_spec :=
| RName (name : string)
| RObject (o : renderer_object).

Inductive raster_value :=
| RasterString (s : string)
| RasterObject (json : string).

Record image_service_parameters := ImageServiceParameters {
  renderingRule : option string;
  mosaicRule : option string;
  raster : option raster_value
}.

(** The fields read from [noTypeLayer.options], and also from the
    descriptor itself when it has no [options]. *)
Record layer_options := LayerOptions {
  imageServiceParameters : option image_service_parameters;
  renderer : option renderer_spec;
  opacity : option Q;
  definition_expression : option string;
  field_name : option string
}.

Record drawing_info := DrawingInfo {
  di_renderer : option renderer_object
}.

Record layer_definition := LayerDefinition {
  drawingInfo : option drawing_info;
  spatialReference : jsval;
  fields : jsval;
  objectIdField : jsval
}.

(** [noTypeLayer].  [options_assigned] tells that [add_notype_layer] has
    assigned [options] to the descriptor, as it does to every element of
    [layers]: the property is then there also when its value is
    [undefined]. *)
Record descriptor := Descriptor {
  type : option string;
  url : option string;
  _hashFromPython : jsval;
  capabilities : option string;
  top : layer_options;
  options : option layer_options;
  options_assigned : bool;
  sublayers : option (list string);
  data : option (list (string * string));
  layerDefinition : option layer_definition;
  featureSet : option string
}.

(** *** Typed layers *)

Inductive layer_class :=
| ImageryLayer | ImageryTileLayer | KMLLayer | TileLayer | MapImageLayer
| VectorTileLayer | WMSLayer | WMTSLayer | GeoRSSLayer | GeoJSONLayer
| CSVLayer | SceneLayer | PointCloudLayer | IntegratedMeshLayer
| BuildingSceneLayer | FeatureLayer.

(** What the constructor was given. *)
Inductive ctor_args :=
| Url (u : option string)
| UrlRenderer (u : option string) (rend : string)
| WholeDescriptor (subLayer0 : option string) (d : descriptor)
| FeatureCollection (title : string) (featureSetJSON : string)
    (spatialRef flds oidField : jsval).

Record typed_layer := TypedLayer {
  class : layer_class;
  args : ctor_args;
  id : jsval;
  props : gmap string jsval
}.

(** [new Class(args)] *)
Definition new (c : layer_class) (a : ctor_args) : typed_layer :=
  {| class := c; args := a; id := JUndefined; props := ∅ |}.

(** [typedLayer.id = v] *)
Definition set_id (v : jsval) (l : typed_layer) : typed_layer :=
  {| class := class l; args := args l; id := v; props := props l |}.

(** [typedLayer.k = v] for the other properties *)
Definition set_prop (k : string) (v : jsval) (l : typed_layer) : typed_layer :=
  {| class := class l; args := args l; id := id l;
     props := <[k := v]> (props l) |}.

(** *** Helpers and vendor calls, taken as inputs *)

Inductive renderer_arg :=
| NoRenderer
| RendererNamed (name : string)
| RendererGiven (o : renderer_object).

Inductive options_object :=
| OptionsField (o : layer_options)
| DescriptorItself (d : descriptor).

Inductive renderer_options :=
| SmartMapOptions (layer : typed_layer) (fieldName : option string)
    (otherLayerOptions : options_object)
| LayerOptionsGiven (o : options_object)
| RendererSpecGiven (r : renderer_spec)
| RendererObjectGiven (o : renderer_object)
| NoOptions.

Record env := Env {
  loadModules : settled unit;
  load : typed_layer → settled unit;
  inferRenderer : renderer_arg → renderer_options → settled string;
  isSmartMapRenderer : renderer_arg → bool;
  createDefaultPopup : typed_layer → string;
  fromJSON : string → string;
  encode_raster : string → string;
  createObjectURL : list (string * string) → string;
  uuid4 : string
}.

(** *** Outcome of the returned promise *)

Inductive reason :=
| Message (s : string)
| TypeError (what : string)
| Error (err : string).

Inductive outcome :=
| Resolved (l : typed_layer)
| Rejected (r : reason)
| Unsettled.

Definition unsupported : string := "This layer type is not supported.".

(** [noTypeLayer.type == "lit"]; an absent [type] equals no literal. *)
Definition tag_is (t : option string) (lit : string) : bool :=
  match t with
  | Some s => String.eqb s lit
  | None => false
  end.

(** The branches that only build the layer from the url and tag it.  A
    positional [url] and a [{url: ...}] argument are both [Url]. *)
Definition from_url (c : layer_class) (d : descriptor) : outcome :=
  Resolved (set_id (_hashFromPython d) (new c (Url (url d)))).

Definition apply_image_service_parameters (e : env)
    (isp : image_service_parameters) (l : typed_layer) : typed_layer :=
  let l := match renderingRule isp with
           | Some json => set_prop "renderingRule" (JOpaque (fromJSON e json)) l
           | None => l
           end in
  let l := match mosaicRule isp with
           | Some json => set_prop "mosaicRule" (JOpaque (fromJSON e json)) l
           | None => l
           end in
  match raster isp with
  | Some (RasterString s) => set_prop "raster" (JString s) l
  | Some (RasterObject json) => set_prop "raster" (JString (encode_raster e json)) l
  | None => l
  end.

(** ['options' in noTypeLayer] *)
Definition options_in (d : descriptor) : bool :=
  options_assigned d || bool_decide (is_Some (options d)).

Definition imagery (e : env) (d : descriptor) : outcome :=
  if tag_is (capabilities d) "tilesOnly" then
    Resolved (set_id (_hashFromPython d) (new ImageryTileLayer (Url (url d))))
  else
    let typedLayer := set_id (_hashFromPython d) (new ImageryLayer (Url (url d))) in
    if options_in d then
      match options d with
      | Some o =>
          match imageServiceParameters o with
          | Some isp => Resolved (apply_image_service_parameters e isp typedLayer)
          | None => Resolved typedLayer
          end
      | None =>
          Rejected (TypeError ("Cannot use 'in' operator to search for " ++
                               "'imageServiceParameters' in undefined"))
      end
    else Resolved typedLayer.

(** [delete noTypeLayer.type] *)
Definition delete_type (d : descriptor) : descriptor :=
  {| type := None; url := url d; _hashFromPython := _hashFromPython d;
     capabilities := capabilities d; top := top d; options := options d;
     options_assigned := options_assigned d;
     sublayers := sublayers d; data := data d;
     layerDefinition := layerDefinition d; featureSet := featureSet d |}.

Definition wms (d : descriptor) : outcome :=
  match sublayers d with
  | None => Rejected (TypeError "noTypeLayer.sublayers is undefined")
  | Some subs =>
      Resolved (set_id (_hashFromPython d)
                  (new WMSLayer (WholeDescriptor (head subs) (delete_type d))))
  end.

(** [renderer.type] of a [renderer] field: a name has no [type]. *)
Definition type_of_spec (r : renderer_spec) : renderer_arg :=
  match r with
  | RName _ => NoRenderer
  | RObject o => match r_type o with
                 | Some t => RendererNamed t
                 | None => NoRenderer
                 end
  end.

Definition type_of_object (o : renderer_object) : renderer_arg :=
  match r_type o with
  | Some t => RendererNamed t
  | None => NoRenderer
  end.

Definition arg_of_spec (r : renderer_spec) : renderer_arg :=
  match r with
  | RName s => RendererNamed s
  | RObject o => RendererGiven o
  end.

Definition geojson (e : env) (d : descriptor) : outcome :=
  match data d with
  | None => Rejected (TypeError "Object.keys of undefined")
  | Some kv =>
      let u := match kv with
               | [] => url d
               | _ :: _ => Some (createObjectURL e kv)
               end in
      let typedLayer := set_id (_hashFromPython d) (new GeoJSONLayer (Url u)) in
      match renderer (top d) with
      | Some r =>
          match inferRenderer e (type_of_spec r) (RendererSpecGiven r) with
          | Fulfilled rend => Resolved (set_prop "renderer" (JOpaque rend) typedLayer)
          | Failed _ => Resolved typedLayer
          | Pending => Unsettled
          end
      | None => Resolved typedLayer
      end
  end.

(** [noTypeLayer.layerDefinition.drawingInfo.renderer]; reading through an
    absent link throws. *)
Definition drawing_renderer (d : descriptor) : reason + renderer_object :=
  match layerDefinition d with
  | None => inl (TypeError "noTypeLayer.layerDefinition is undefined")
  | Some ld =>
      match drawingInfo ld with
      | None => inl (TypeError "layerDefinition.drawingInfo is undefined")
      | Some di =>
          match di_renderer di with
          | None => inl (TypeError "drawingInfo.renderer is undefined")
          | Some ro => inr ro
          end
      end
  end.

Definition csv (e : env) (d : descriptor) : outcome :=
  match drawing_renderer d with
  | inl err => Rejected err
  | inr ro =>
      match inferRenderer e (type_of_object ro) (RendererObjectGiven ro) with
      | Fulfilled rend =>
          Resolved (set_id (_hashFromPython d)
                      (new CSVLayer (UrlRenderer (url d) rend)))
      | Failed _ =>
          Resolved (set_id (_hashFromPython d) (new CSVLayer (Url (url d))))
      | Pending => Unsettled
      end
  end.

Definition fields_of (lyr_options : options_object) : layer_options :=
  match lyr_options with
  | OptionsField o => o
  | DescriptorItself d => top d
  end.

(** [!lyr_options.renderer] is false for a non-empty name or an object. *)
Definition truthy_renderer (r : option renderer_spec) : bool :=
  match r with
  | None => false
  | Some (RName s) => negb (String.eqb s "")
  | Some (RObject _) => true
  end.

Definition set_opacity (o : option Q) (l : typed_layer) : typed_layer :=
  match o with
  | Some q => set_prop "opacity" (JNumber q) l
  | None => l
  end.

Definition set_definitionExpression (o : option string) (l : typed_layer)
    : typed_layer :=
  match o with
  | Some s => set_prop "definitionExpression" (JString s) l
  | None => l
  end.

(** The [FeatureLayer] branch.  [load()] fulfils with the layer it was
    called on. *)
Definition feature_layer (e : env) (d : descriptor) : outcome :=
  let unloadedLayer := set_id (_hashFromPython d) (new FeatureLayer (Url (url d))) in
  match load e unloadedLayer with
  | Failed err => Rejected (Error err)
  | Pending => Unsettled
  | Fulfilled _ =>
      let layer := set_prop "popupTemplate"
                     (JOpaque (createDefaultPopup e unloadedLayer)) unloadedLayer in
      let lyr_options := match options d with
                         | None => DescriptorItself d
                         | Some o => OptionsField o
                         end in
      let lo := fields_of lyr_options in
      let layer := set_opacity (opacity lo) layer in
      let layer := set_opacity (opacity (top d)) layer in
      let layer := set_definitionExpression (definition_expression lo) layer in
      let layer := set_definitionExpression (definition_expression (top d)) layer in
      match renderer lo with
      | Some r =>
          if truthy_renderer (Some r) then
            let rendererOptions :=
              if isSmartMapRenderer e (arg_of_spec r)
              then SmartMapOptions layer (field_name lo) lyr_options
              else LayerOptionsGiven lyr_options in
            let '(rend, rendererOptions) :=
              match r with
              | RObject (RendererObject (Some t) _ _ as o) =>
                  (RendererNamed t, RendererObjectGiven o)
              | _ => (arg_of_spec r, rendererOptions)
              end in
            match inferRenderer e rend rendererOptions with
            | Fulfilled rr => Resolved (set_prop "renderer" (JOpaque rr) layer)
            | Failed err => Rejected (Error err)
            | Pending => Unsettled
            end
          else Resolved layer
      | None => Resolved layer
      end
  end.

(** The [featureSet] branch (feature collections). *)
Definition feature_collection (e : env) (d : descriptor) (fs : string)
    : outcome :=
  match layerDefinition d with
  | None => Rejected (TypeError "layerDefinition is undefined")
  | Some ld =>
      let typedLayer :=
        new FeatureLayer
          (FeatureCollection (uuid4 e) (fromJSON e fs)
             (spatialReference ld) (fields ld) (objectIdField ld)) in
      let typedLayer := set_prop "popupTemplate"
                          (JOpaque (createDefaultPopup e typedLayer)) typedLayer in
      let typedLayer := set_id (_hashFromPython d) typedLayer in
      match options d with
      | None => Rejected (TypeError "noTypeLayer.options is undefined")
      | Some o =>
          let chosen : reason + renderer_arg :=
            match renderer o with
            | Some r => inr (arg_of_spec r)
            | None =>
                match drawing_renderer d with
                | inl err => inl err
                | inr ro =>
                    if tag_is (r_renderer ro) "autocast"
                    then inr (RendererNamed "autocast")
                    else inr (type_of_object ro)
                end
            end in
          match chosen with
          | inl err => Rejected err
          | inr rend =>
              let rendererOptions : reason + renderer_options :=
                if isSmartMapRenderer e rend
                then inr (SmartMapOptions typedLayer (field_name o) (OptionsField o))
                else match drawingInfo ld with
                     | None => inl (TypeError "layerDefinition.drawingInfo is undefined")
                     | Some di =>
                         match di_renderer di with
                         | Some ro => inr (RendererObjectGiven ro)
                         | None => inr NoOptions
                         end
                     end in
              match rendererOptions with
              | inl err => Rejected err
              | inr ropts =>
                  match inferRenderer e rend ropts with
                  | Fulfilled rr =>
                      Resolved (set_prop "renderer" (JOpaque rr) typedLayer)
                  | Failed err => Rejected (Error err)
                  | Pending => Unsettled
                  end
              end
          end
      end
  end.

(** The callback run once the modules are loaded: the chain of
    [if / else if] on [noTypeLayer.type], in source order. *)
Definition dispatch (e : env) (d : descriptor) : outcome :=
  let t := type d in
  if tag_is t "ImageryLayer" then imagery e d
  else if tag_is t "KMLLayer" || tag_is t "KML" then from_url KMLLayer d
  else if tag_is t "ArcGISTiledMapServiceLayer" || tag_is t "TileLayer"
    then from_url TileLayer d
  else if tag_is t "ArcGISDynamicMapServiceLayer" || tag_is t "MapImageLayer"
    then from_url MapImageLayer d
  else if tag_is t "VectorTileLayer" then from_url VectorTileLayer d
  else if tag_is t "WMS" then wms d
  else if tag_is t "WebTiledLayer" then from_url WMTSLayer d
  else if tag_is t "GeoRSS" then from_url GeoRSSLayer d
  else if tag_is t "GeoJSON" then geojson e d
  else if tag_is t "CSV" then csv e d
  else if tag_is t "SceneLayer" then from_url SceneLayer d
  else if tag_is t "PointCloudLayer" then from_url PointCloudLayer d
  else if tag_is t "IntegratedMeshLayer" then from_url IntegratedMeshLayer d
  else if tag_is t "BuildingSceneLayer" then from_url BuildingSceneLayer d
  else if tag_is t "FeatureLayer" || tag_is t "Feature Layer"
    then feature_layer e d
  else match featureSet d with
       | Some fs => feature_collection e d fs
       | None => Rejected (Message unsupported)
       end.

(** [inferNoTypeLayer(noTypeLayer, widget)]: the promise settles as the
    callback decides once [loadModules] is fulfilled, and is rejected with
    the loader's error otherwise. *)
Definition inferNoTypeLayer (e : env) (d : descriptor) : outcome :=
  match loadModules e with
  | Fulfilled _ => dispatch e d
  | Failed err => Rejected (Error err)
  | Pending => Unsettled
  end.

(** The tags the chain compares against, in source order. *)
Definition known_tags : list string :=
  [ "ImageryLayer"; "KMLLayer"; "KML"; "ArcGISTiledMapServiceLayer";
    "TileLayer"; "ArcGISDynamicMapServiceLayer"; "MapImageLayer";
    "VectorTileLayer"; "WMS"; "WebTiledLayer"; "GeoRSS"; "GeoJSON"; "CSV";
    "SceneLayer"; "PointCloudLayer"; "IntegratedMeshLayer";
    "BuildingSceneLayer"; "FeatureLayer"; "Feature Layer" ].

(** [type] with the tag replaced, for comparing descriptors that differ
    in the tag only. *)
Definition with_type (t : string) (d : descriptor) : descriptor :=
  {| type := Some t; url := url d; _hashFromPython := _hashFromPython d;
     capabilities := capabilities d; top := top d; options := options d;
     options_assigned := options_assigned d;
     sublayers := sublayers d; data := data d;
     layerDefinition := layerDefinition d; featureSet := featureSet d |}.

End InferNoTypeLayer.

(** ** The error reporting sink ([_displayErrorBox]) *)

Module ErrorSink.

(** The part of the page the sink works on: the error text box of
    [this.elements], whether it is attached to the document, the progress
    display, and the lines written with [console.warn]. *)
Record page := Page {
  textContent : string;
  in_document : bool;
  progress_running : bool;
  console : list string
}.

Definition default_message : string :=
  "Unhandled Error! See the browser console for more info.".

Definition console_suffix : string :=
  " See the browser console for more info.".

Definition multiple_messages_info : string :=
  "Multiple messages attempted to " ++
  "display. See browser console to view all messages".

Definition message_box_prefix : string := "*****MESSAGE_BOX: ".

(** Modelled from the spec: [elements/display-purejs-error-box.js] is not
    among the sources.  Section 4.3 of the specification has the sink
    "show the new one", and on a second report "replace its content": the
    helper makes the message the text content of the error box. *)
Definition displayPureJSErrorBox (msg : string) (p : page) : page :=
  {| textContent := msg; in_document := in_document p;
     progress_running := progress_running p; console := console p |}.

(** [loadingProgressDisplay.stop()] *)
Definition stop_progress (p : page) : page :=
  {| textContent := textContent p; in_document := in_document p;
     progress_running := false; console := console p |}.

(** [this.el.appendChild(this.elements.errorTextBox)] when the box is not
    yet in the document *)
Definition attach (p : page) : page :=
  {| textContent := textContent p; in_document := true;
     progress_running := progress_running p; console := console p |}.

Definition warn (line : string) (p : page) : page :=
  {| textContent := textContent p; in_document := in_document p;
     progress_running := progress_running p;
     console := console p ++ [line] |}.

(** The first statement: the text that will be displayed or logged.  An
    absent or empty [msg] is falsy. *)
Definition decorate (msg : option string) (browser_console_message : bool)
    : string :=
  match msg with
  | None => default_message
  | Some m =>
      if String.eqb m "" then default_message
      else if browser_console_message then m ++ console_suffix
      else m
  end.

Definition _displayErrorBox (msg : option string)
    (browser_console_message : bool) (p : page) : page :=
  let msg := decorate msg browser_console_message in
  let p := stop_progress p in
  let p := if in_document p then p else attach p in
  if String.eqb (textContent p) "" then
    displayPureJSErrorBox msg p
  else
    let p := if String.eqb (textContent p) multiple_messages_info then p
             else warn (message_box_prefix ++ textContent p) p in
    let p := warn (message_box_prefix ++ msg) p in
    displayPureJSErrorBox multiple_messages_info p.

(** A report with the default second argument. *)
Definition report (msg : string) (p : page) : page :=
  _displayErrorBox (Some msg) true p.

End ErrorSink.

(** ** The synchronisation bridge (change handlers and stationary callbacks) *)

Module SyncBridge.

(** A JavaScript number held by a numeric attribute or view property. *)
Inductive number :=
| NaN
| Num (q : Q).

(** [x >= c] *)
Definition ge (x : number) (c : Q) : bool :=
  match x with
  | NaN => false
  | Num q => Qle_bool c q
  end.

(** JavaScript numbers are IEEE 754 doubles, and arithmetic rounds to the
    nearest double, ties going to the even mantissa.  [nearest q] is the
    double nearest to the rational [q]: [q] is scaled to an integer of 57
    bits or more, a last bit is added that tells whether the division left
    a remainder, and the Standard Library's [binary_normalize] rounds that
    integer to 53 bits. *)
Definition nearest (q : Q) : spec_float :=
  let n := Qnum q in
  let d := Zpos (Qden q) in
  let k := (57 + Z.log2 d)%Z in
  let a := (Z.abs n * 2 ^ k)%Z in
  let m := (2 * (a / d) + (if (a mod d =? 0)%Z then 0 else 1))%Z in
  binary_normalize 53 1024 (Z.sgn n * m)%Z (- k - 1)%Z false.

(** The number a double is.  [number] has no infinities: none arises
    below, where a double is subtracted from 360. *)
Definition of_double (f : spec_float) : number :=
  match f with
  | S754_zero _ => Num 0
  | S754_finite s m e =>
      Num (Qred (inject_Z (if s then Zneg m else Zpos m) * Qpower 2 e))
  | S754_infinity _ => NaN
  | S754_nan => NaN
  end.

(** [c - x]: the difference, rounded to a double. *)
Definition minus_from (c : Q) (x : number) : number :=
  match x with
  | NaN => NaN
  | Num q => of_double (nearest (c - q))
  end.

(** The comparison Backbone's [set] uses to decide whether a value
    changed ([_.isEqual]) . *)
Definition number_eqb (a b : number) : bool :=
  match a, b with
  | NaN, NaN => true
  | Num p, Num q => Qeq_bool p q
  | _, _ => false
  end.

(** The attributes of the model read or written by the handlers below
    (names and types as in the model's [defaults]); objects are kept as
    their JSON text. *)
Record attributes := Attributes {
  _zoom : number;
  _readonly_zoom : number;
  _scale : number;
  _readonly_scale : number;
  _readonly_rotation : number;
  _readonly_heading : number;
  _readonly_tilt : number;
  _readonly_center : string;
  _readonly_extent : string
}.

Definition defaults : attributes :=
  {| _zoom := Num (-1); _readonly_zoom := Num (-1);
     _scale := Num (-1); _readonly_scale := Num (-1);
     _readonly_rotation := Num 0; _readonly_heading := Num 0;
     _readonly_tilt := Num 0;
     _readonly_center := "{}"; _readonly_extent := "{}" |}.

Definition put_readonly_zoom (v : number) (a : attributes) : attributes :=
  {| _zoom := _zoom a; _readonly_zoom := v; _scale := _scale a;
     _readonly_scale := _readonly_scale a;
     _readonly_rotation := _readonly_rotation a;
     _readonly_heading := _readonly_heading a;
     _readonly_tilt := _readonly_tilt a;
     _readonly_center := _readonly_center a;
     _readonly_extent := _readonly_extent a |}.

Definition put_readonly_scale (v : number) (a : attributes) : attributes :=
  {| _zoom := _zoom a; _readonly_zoom := _readonly_zoom a; _scale := _scale a;
     _readonly_scale := v;
     _readonly_rotation := _readonly_rotation a;
     _readonly_heading := _readonly_heading a;
     _readonly_tilt := _readonly_tilt a;
     _readonly_center := _readonly_center a;
     _readonly_extent := _readonly_extent a |}.

Definition put_readonly_rotation (v : number) (a : attributes) : attributes :=
  {| _zoom := _zoom a; _readonly_zoom := _readonly_zoom a; _scale := _scale a;
     _readonly_scale := _readonly_scale a;
     _readonly_rotation := v;
     _readonly_heading := _readonly_heading a;
     _readonly_tilt := _readonly_tilt a;
     _readonly_center := _readonly_center a;
     _readonly_extent := _readonly_extent a |}.

Definition put_readonly_heading (v : number) (a : attributes) : attributes :=
  {| _zoom := _zoom a; _readonly_zoom := _readonly_zoom a; _scale := _scale a;
     _readonly_scale := _readonly_scale a;
     _readonly_rotation := _readonly_rotation a;
     _readonly_heading := v;
     _readonly_tilt := _readonly_tilt a;
     _readonly_center := _readonly_center a;
     _readonly_extent := _readonly_extent a |}.

Definition put_readonly_tilt (v : number) (a : attributes) : attributes :=
  {| _zoom := _zoom a; _readonly_zoom := _readonly_zoom a; _scale := _scale a;
     _readonly_scale := _readonly_scale a;
     _readonly_rotation := _readonly_rotation a;
     _readonly_heading := _readonly_heading a;
     _readonly_tilt := v;
     _readonly_center := _readonly_center a;
     _readonly_extent := _readonly_extent a |}.

Definition put_readonly_center (v : string) (a : attributes) : attributes :=
  {| _zoom := _zoom a; _readonly_zoom := _readonly_zoom a; _scale := _scale a;
     _readonly_scale := _readonly_scale a;
     _readonly_rotation := _readonly_rotation a;
     _readonly_heading := _readonly_heading a;
     _readonly_tilt := _readonly_tilt a;
     _readonly_center := v;
     _readonly_extent := _readonly_extent a |}.

Definition put_readonly_extent (v : string) (a : attributes) : attributes :=
  {| _zoom := _zoom a; _readonly_zoom := _readonly_zoom a; _scale := _scale a;
     _readonly_scale := _readonly_scale a;
     _readonly_rotation := _readonly_rotation a;
     _readonly_heading := _readonly_heading a;
     _readonly_tilt := _readonly_tilt a;
     _readonly_center := _readonly_center a;
     _readonly_extent := v |}.

(** *** The surface *)

Record camera := Camera {
  heading : number;
  tilt : number
}.

(** A [MapView] or [SceneView]: the properties the handlers touch.
    [center] and [extent] are absent while the view has none. *)
Record view := View {
  zoom : number;
  scale : number;
  center : option string;
  extent : option string;
  rotation : number;
  view_camera : option camera
}.

(** The assignments [zoom_changed] and [scale_changed] make to a view.
    The vendor view couples its zoom and its scale and may snap or clamp
    what it is given: the view that results is the vendor's matter. *)
Inductive assignment :=
| SetZoom (v : number)
| SetScale (v : number).

(** [view.rotation = v] *)
Definition put_rotation (v : number) (x : view) : view :=
  {| zoom := zoom x; scale := scale x; center := center x; extent := extent x;
     rotation := v; view_camera := view_camera x |}.

(** Work handed to the vendor library for a later turn of the event loop. *)
Inductive task :=
| ApplyHeading (h : number).

(** *** The widget *)

(** [model] holds the current attribute values and [synced] what
    [save_changes] last sent to the kernel; [dispatched] lists the methods
    invoked through a change event; [activeView] is [_SceneView] when
    [scene_active] and [_MapView] otherwise.  [assign] is an input of the
    model: the view the vendor library makes of a view when its zoom or its
    scale is assigned. *)
Record widget := Widget {
  model : attributes;
  synced : attributes;
  dispatched : list string;
  _MapView : view;
  _SceneView : view;
  scene_active : bool;
  scheduled : list task;
  page : ErrorSink.page;
  assign : assignment → view → view
}.

Definition with_model (a : attributes) (w : widget) : widget :=
  {| model := a; synced := synced w; dispatched := dispatched w;
     _MapView := _MapView w; _SceneView := _SceneView w;
     scene_active := scene_active w; scheduled := scheduled w;
     page := page w; assign := assign w |}.

Definition with_dispatched (l : list string) (w : widget) : widget :=
  {| model := model w; synced := synced w; dispatched := l;
     _MapView := _MapView w; _SceneView := _SceneView w;
     scene_active := scene_active w; scheduled := scheduled w;
     page := page w; assign := assign w |}.

Definition with_MapView (x : view) (w : widget) : widget :=
  {| model := model w; synced := synced w; dispatched := dispatched w;
     _MapView := x; _SceneView := _SceneView w;
     scene_active := scene_active w; scheduled := scheduled w;
     page := page w; assign := assign w |}.

Definition with_SceneView (x : view) (w : widget) : widget :=
  {| model := model w; synced := synced w; dispatched := dispatched w;
     _MapView := _MapView w; _SceneView := x;
     scene_active := scene_active w; scheduled := scheduled w;
     page := page w; assign := assign w |}.

Definition schedule (t : task) (w : widget) : widget :=
  {| model := model w; synced := synced w; dispatched := dispatched w;
     _MapView := _MapView w; _SceneView := _SceneView w;
     scene_active := scene_active w; scheduled := scheduled w ++ [t];
     page := page w; assign := assign w |}.

(** [this.model.save_changes()] *)
Definition save_changes (w : widget) : widget :=
  {| model := model w; synced := model w; dispatched := dispatched w;
     _MapView := _MapView w; _SceneView := _SceneView w;
     scene_active := scene_active w; scheduled := scheduled w;
     page := page w; assign := assign w |}.

Definition activeView (w : widget) : view :=
  if scene_active w then _SceneView w else _MapView w.

(** An assignment to a property of [this.activeView]. *)
Definition on_activeView (f : view → view) (w : widget) : widget :=
  if scene_active w then with_SceneView (f (_SceneView w)) w
  else with_MapView (f (_MapView w)) w.

(** *** Change handlers registered on the model *)

(** Every [this.model.on(event, this.method, this)] of the view, in
    subscription order: the one of [_setup_js_cdn], which [render] calls
    first, then those of [render]. *)
Definition registrations : list (string * string) :=
  [ ("change:_js_cdn_override", "js_cdn_changed");
    ("change:mode", "mode_changed");
    ("change:_basemap", "basemap_changed");
    ("change:_zoom", "zoom_changed");
    ("change:_scale", "scale_changed");
    ("change:_snap_to_zoom", "snap_to_zoom_changed");
    ("change:_rotation", "rotation_changed");
    ("change:_link_writeonly_rotation", "link_rotation_changed");
    ("change:_heading", "heading_changed");
    ("change:_link_writeonly_heading", "link_heading_changed");
    ("change:_tilt", "tilt_changed");
    ("change:_link_writeonly_tilt", "link_tilt_changed");
    ("change:_extent", "extent_changed");
    ("change:_link_writeonly_extent", "link_extent_changed");
    ("change:_center", "center_changed");
    ("change:_center_long_lat", "center_long_lat_changed");
    ("change:_func_chains", "func_chains_changed");
    ("change:_add_this_notype_layer", "add_this_notype_layer_changed");
    ("change:_layers_to_remove", "layers_to_remove_changed");
    ("change:_add_this_graphic", "graphics_changed");
    ("change:_webmap", "webmap_changed");
    ("change:_webscene", "webscene_changed");
    ("change:_trigger_webscene_save_to_this_portal_id", "save_webscene");
    ("change:_trigger_screenshot_with_args",
     "_trigger_screenshot_with_args_changed");
    ("change:_overlay_this_image", "overlay_image_changed");
    ("change:_image_overlays_to_remove", "image_overlays_to_remove_changed");
    ("change:time_slider", "time_slider_prop_changed");
    ("change:time_mode", "time_mode_changed");
    ("change:_time_info", "time_info_changed");
    ("change:_writeonly_start_time", "start_time_changed");
    ("change:_writeonly_end_time", "end_time_changed");
    ("change:_portal_token", "portal_token_changed");
    ("change:_custom_msg", "custom_msg_changed");
    ("change:hide_mode_switch", "hide_mode_switch_changed");
    ("change:_trigger_interactive_draw_mode_for", "interactive_draw_shape");
    ("change:_trigger_new_jlab_window_with_args",
     "trigger_jlab_window_changed");
    ("change:_js_cdn_override", "js_cdn_changed");
    ("change:legend", "legend_prop_changed");
    ("change:_trigger_print_js_debug_info",
     "trigger_print_js_debug_info_changed") ].

(** The methods registered for one event, in subscription order. *)
Definition handlers_on (event : string) : list string :=
  map snd (filter (fun r => String.eqb (fst r) event = true) registrations).

(** What [this.model.set(attr, v)] does after storing [v]: when the
    value changed, the event ["change:" ++ attr] invokes the methods
    registered for it. *)
Definition trigger (attr : string) (changed : bool) (w : widget) : widget :=
  if changed
  then with_dispatched (dispatched w ++ handlers_on ("change:" ++ attr)) w
  else w.

Definition set_number (attr : string) (get : attributes → number)
    (put : number → attributes → attributes) (v : number) (w : widget)
    : widget :=
  trigger attr (negb (number_eqb (get (model w)) v))
          (with_model (put v (model w)) w).

Definition set_json (attr : string) (get : attributes → string)
    (put : string → attributes → attributes) (v : string) (w : widget)
    : widget :=
  trigger attr (negb (String.eqb (get (model w)) v))
          (with_model (put v (model w)) w).

(** *** Store-to-surface handlers *)

(** Nothing in the [try] block throws in this model, so the [catch]
    branch, which would report to the error sink, is never taken. *)
Definition zoom_changed (w : widget) : widget :=
  let zoom := _zoom (model w) in
  let w := set_number "_readonly_zoom" _readonly_zoom put_readonly_zoom zoom w in
  let w := if ge zoom 0 then on_activeView (assign w (SetZoom zoom)) w else w in
  save_changes w.

Definition scale_changed (w : widget) : widget :=
  let scale := _scale (model w) in
  let w := set_number "_readonly_scale" _readonly_scale put_readonly_scale scale w in
  let w := save_changes w in
  if ge scale 1 then on_activeView (assign w (SetScale scale)) w else w.

(** [this._MapView.rotation = rotation] *)
Definition apply_rotation_to_view (rotation : number) (w : widget) : widget :=
  with_MapView (put_rotation rotation (_MapView w)) w.

(** [apply_heading_to_view] only asks the loader for [watchUtils]; the
    [goTo] on the scene view happens in a later turn. *)
Definition apply_heading_to_view (heading : number) (w : widget) : widget :=
  schedule (ApplyHeading heading) w.

(** *** Surface-to-store callbacks *)

Definition _commonStationaryCallback (w : widget) : widget :=
  let zoom := zoom (activeView w) in
  let w := if ge zoom 0
           then set_number "_readonly_zoom" _readonly_zoom put_readonly_zoom zoom w
           else w in
  let scale := scale (activeView w) in
  let w := if ge scale 1
           then set_number "_readonly_scale" _readonly_scale put_readonly_scale scale w
           else w in
  let w := match center (activeView w) with
           | Some c => set_json "_readonly_center" _readonly_center put_readonly_center c w
           | None => w
           end in
  let w := match extent (activeView w) with
           | Some x => set_json "_readonly_extent" _readonly_extent put_readonly_extent x w
           | None => w
           end in
  save_changes w.

(** [this] is the 2D [MapView]. *)
Definition _2dStationaryCallback (w : widget) : widget :=
  let rotation := rotation (_MapView w) in
  let w :=
    if ge rotation 0 then
      let w := set_number "_readonly_rotation" _readonly_rotation
                 put_readonly_rotation rotation w in
      let heading := minus_from 360 rotation in
      let w := set_number "_readonly_heading" _readonly_heading
                 put_readonly_heading heading w in
      apply_heading_to_view heading w
    else w in
  _commonStationaryCallback w.

(** [this] is the 3D [SceneView]. *)
Definition _3dStationaryCallback (w : widget) : widget :=
  let w :=
    match view_camera (_SceneView w) with
    | Some camera =>
        let w := set_number "_readonly_heading" _readonly_heading
                   put_readonly_heading (heading camera) w in
        let rotation := minus_from 360 (heading camera) in
        let w := set_number "_readonly_rotation" _readonly_rotation
                   put_readonly_rotation rotation w in
        let w := apply_rotation_to_view rotation w in
        set_number "_readonly_tilt" _readonly_tilt put_readonly_tilt
          (tilt camera) w
    | None => w
    end in
  _commonStationaryCallback w.

End SyncBridge.

(** ** Portal authentication ([get_portal_token], [authenticate_to_portal]) *)

Module PortalAuth.

(** [String.prototype.toLowerCase] on ASCII strings. *)
Definition lower (c : ascii) : ascii :=
  let n := nat_of_ascii c in
  if (65 <=? n)%nat && (n <=? 90)%nat then ascii_of_nat (n + 32) else c.

Fixpoint toLowerCase (s : string) : string :=
  match s with
  | EmptyString => EmptyString
  | String c rest => String (lower c) (toLowerCase rest)
  end.

(** A string in a condition: the empty string is falsy. *)
Definition truthy (s : string) : bool := negb (String.eqb s "").

(** The model attributes the gate reads. *)
Record attributes := Attributes {
  _auth_mode : string;
  _portal_url : string;
  _portal_sharing_rest_url : string;
  _portal_token : string;
  _username : string
}.

(** What [new Portal(...)] was given. *)
Inductive portal_properties :=
| Anonymous
| WithUrl (url : string)
| Immediate (authorizedCrossOriginDomains : list string).

Record portal := Portal {
  properties : portal_properties;
  loaded : bool
}.

(** The state of the vendor library: every [Portal] constructed so far (a
    portal object is known by its position), [esriConfig], and what was
    registered with the [IdentityManager]. *)
Record vendor := Vendor {
  portals : list portal;
  portalUrl : string;
  trustedServers : list string;
  registeredServers : list (string * string);
  registeredTokens : list (string * string * string)
}.

(** How the promise returned to one caller settled. *)
Inductive result :=
| ResolvedWith (p : nat)
| RejectedWith (reason : string).

(** The widget instance with the module-level [globalTokenLookup], the
    vendor library, and the promises in flight: the calls whose
    [loadModules] is pending, the [load()] continuations (portal, caller),
    and the settled callers. *)
Record world := World {
  model : attributes;
  uuid : string;
  _portalToken : option string;
  globalTokenLookup : gmap string string;
  _portal : option nat;
  lib : vendor;
  awaiting_modules : list nat;
  loading : list (nat * nat);
  results : gmap nat result
}.

Definition with_model (a : attributes) (w : world) : world :=
  {| model := a; uuid := uuid w; _portalToken := _portalToken w;
     globalTokenLookup := globalTokenLookup w; _portal := _portal w;
     lib := lib w; awaiting_modules := awaiting_modules w;
     loading := loading w; results := results w |}.

Definition with_portal (p : option nat) (w : world) : world :=
  {| model := model w; uuid := uuid w; _portalToken := _portalToken w;
     globalTokenLookup := globalTokenLookup w; _portal := p;
     lib := lib w; awaiting_modules := awaiting_modules w;
     loading := loading w; results := results w |}.

Definition with_lib (v : vendor) (w : world) : world :=
  {| model := model w; uuid := uuid w; _portalToken := _portalToken w;
     globalTokenLookup := globalTokenLookup w; _portal := _portal w;
     lib := v; awaiting_modules := awaiting_modules w;
     loading := loading w; results := results w |}.

Definition with_awaiting (l : list nat) (w : world) : world :=
  {| model := model w; uuid := uuid w; _portalToken := _portalToken w;
     globalTokenLookup := globalTokenLookup w; _portal := _portal w;
     lib := lib w; awaiting_modules := l;
     loading := loading w; results := results w |}.

Definition with_loading (l : list (nat * nat)) (w : world) : world :=
  {| model := model w; uuid := uuid w; _portalToken := _portalToken w;
     globalTokenLookup := globalTokenLookup w; _portal := _portal w;
     lib := lib w; awaiting_modules := awaiting_modules w;
     loading := l; results := results w |}.

(** [resolve(...)] or [reject(...)] on the promise of caller [c]; a
    settled promise stays as it is. *)
Definition settle (c : nat) (r : result) (w : world) : world :=
  {| model := model w; uuid := uuid w; _portalToken := _portalToken w;
     globalTokenLookup := globalTokenLookup w; _portal := _portal w;
     lib := lib w; awaiting_modules := awaiting_modules w;
     loading := loading w;
     results := match results w !! c with
                | Some _ => results w
                | None => <[c := r]> (results w)
                end |}.

Definition get_portal_token (w : world) : string :=
  match _portalToken w with
  | Some t =>
      if truthy t then t
      else match globalTokenLookup w !! uuid w with
           | Some g => g
           | None => _portal_token (model w)
           end
  | None =>
      match globalTokenLookup w !! uuid w with
      | Some g => g
      | None => _portal_token (model w)
      end
  end.

(** [this._portal = new Portal(props); this._portal.load().then(...)] for
    caller [c]. *)
Definition construct_and_load (props : portal_properties) (c : nat)
    (w : world) : world :=
  let p := length (portals (lib w)) in
  let v := {| portals := portals (lib w) ++ [Portal props false];
              portalUrl := portalUrl (lib w);
              trustedServers := trustedServers (lib w);
              registeredServers := registeredServers (lib w);
              registeredTokens := registeredTokens (lib w) |} in
  with_loading (loading w ++ [(p, c)]) (with_portal (Some p) (with_lib v w)).

(** [esriConfig.portalUrl = _portal_url] when the url is not empty *)
Definition set_portalUrl (w : world) : world :=
  if String.eqb (_portal_url (model w)) "" then w
  else with_lib {| portals := portals (lib w);
                   portalUrl := _portal_url (model w);
                   trustedServers := trustedServers (lib w);
                   registeredServers := registeredServers (lib w);
                   registeredTokens := registeredTokens (lib w) |} w.

(** [registerServers], [registerToken] and the push on [trustedServers]
    of the token based branch *)
Definition register_token (token : string) (w : world) : world :=
  let rest := _portal_sharing_rest_url (model w) in
  with_lib {| portals := portals (lib w);
              portalUrl := portalUrl (lib w);
              trustedServers := trustedServers (lib w) ++ [_portal_url (model w)];
              registeredServers :=
                registeredServers (lib w) ++ [(rest, rest ++ "generateToken")];
              registeredTokens :=
                registeredTokens (lib w) ++ [(rest, _username (model w), token)] |} w.

(** A value spliced into a message: [undefined] prints as its name. *)
Definition show (o : option string) : string :=
  match o with
  | Some s => s
  | None => "undefined"
  end.

Definition rejMsg (w : world) : string :=
  "_portal_url, _portal_sharing_rest_url, and _portal_token " ++
  "must be specified to authenticate in 'tokenBased' auth mode. " ++
  "_portal_url = " ++ _portal_url (model w) ++ ", _portal_sharing_rest_url = " ++
  _portal_sharing_rest_url (model w) ++ ", _portal_token = " ++ show (_portalToken w).

Definition bad_mode_message : string :=
  "You must specify the '_auth_mode' model variable to " ++
  "either 'anonymous', 'tokenbased', or 'prompt'".

(** [('_portal' in this) && (this._portal.loaded)]: the cached portal. *)
Definition cached (w : world) : option nat :=
  match _portal w with
  | Some p =>
      match portals (lib w) !! p with
      | Some po => if loaded po then Some p else None
      | None => None
      end
  | None => None
  end.

(** The callback of [loadModules] inside [authenticate_to_portal], run
    for caller [c]. *)
Definition authenticate_body (c : nat) (w : world) : world :=
  match cached w with
  | Some p => settle c (ResolvedWith p) w
  | None =>
      let mode := toLowerCase (_auth_mode (model w)) in
      if String.eqb mode "anonymous" then
        construct_and_load Anonymous c (set_portalUrl w)
      else if String.eqb mode "tokenbased" then
        let _portal_token := get_portal_token w in
        if negb (truthy (_portal_url (model w))
                 && truthy (_portal_sharing_rest_url (model w))
                 && truthy _portal_token)
        then settle c (RejectedWith (rejMsg w)) w
        else construct_and_load (WithUrl (_portal_url (model w))) c
               (register_token _portal_token w)
      else if String.eqb mode "prompt" then
        let w := set_portalUrl w in
        construct_and_load (Immediate [portalUrl (lib w)]) c w
      else settle c (RejectedWith bad_mode_message) w
  end.

(** [load()] of portal [p] is fulfilled: the portal is loaded. *)
Definition mark_loaded (p : nat) (w : world) : world :=
  with_lib {| portals := alter (fun po => Portal (properties po) true) p
                               (portals (lib w));
              portalUrl := portalUrl (lib w);
              trustedServers := trustedServers (lib w);
              registeredServers := registeredServers (lib w);
              registeredTokens := registeredTokens (lib w) |} w.

(** The callers waiting on [load()] of portal [p]. *)
Definition waiting_on (p : nat) (w : world) : list nat :=
  map snd (filter (fun pc => fst pc = p) (loading w)).

Definition drop_loading (p : nat) (w : world) : world :=
  with_loading (filter (fun pc => fst pc ≠ p) (loading w)) w.

(** What can happen, one turn of the event loop at a time. *)
Inductive event :=
| Call (c : nat)
| ModulesLoaded (c : nat)
| ModulesFailed (c : nat) (err : string)
| LoadFulfilled (p : nat)
| LoadRejected (p : nat) (err : string)
| ModelChanged (a : attributes).

Definition step (w : world) (ev : event) : world :=
  match ev with
  | Call c => with_awaiting (awaiting_modules w ++ [c]) w
  | ModulesLoaded c =>
      if bool_decide (c ∈ awaiting_modules w)
      then authenticate_body c
             (with_awaiting (filter (fun x => x ≠ c) (awaiting_modules w)) w)
      else w
  | ModulesFailed c err =>
      if bool_decide (c ∈ awaiting_modules w)
      then settle c (RejectedWith err)
             (with_awaiting (filter (fun x => x ≠ c) (awaiting_modules w)) w)
      else w
  | LoadFulfilled p =>
      match waiting_on p w with
      | [] => w
      | callers =>
          foldl (fun acc c =>
                   match _portal acc with
                   | Some q => settle c (ResolvedWith q) acc
                   | None => acc
                   end)
                (drop_loading p (mark_loaded p w)) callers
      end
  | LoadRejected p err =>
      foldl (fun acc c => settle c (RejectedWith err) acc)
            (drop_loading p w) (waiting_on p w)
  | ModelChanged a => with_model a w
  end.

Definition run (w : world) (evs : list event) : world := foldl step w evs.

(** A freshly rendered widget. *)
Definition fresh (a : attributes) (id : string) : world :=
  {| model := a; uuid := id; _portalToken := None; globalTokenLookup := ∅;
     _portal := None;
     lib := {| portals := []; portalUrl := "https://www.arcgis.com";
               trustedServers := []; registeredServers := [];
               registeredTokens := [] |};
     awaiting_modules := []; loading := []; results := ∅ |}.

(** Number of portals constructed, each of which is loaded once. *)
Definition requests (w : world) : nat := length (portals (lib w)).

(** An authentication attempt is pending: some [load()] has not settled. *)
Definition authenticating (w : world) : Prop := loading w ≠ [].

End PortalAuth.

(** ** The layers the widget keeps one instance of *)

Module SingletonLayers.
Import LayerRemoval.

Definition graphicsLayerId : string := "graphicsLayerId31195".
Definition imageOverlayLayerId : string := "imageOverlayLayerId551883".

(** [this.map.add(layer)]: the layer goes to the end of the collection. *)
Definition add (l : layer) (layers : list layer) : list layer :=
  (layers ++ [l])%list.

(** [getGraphicsLayer]: the map's layers afterwards and the path of the
    layer returned. *)
Definition getGraphicsLayer (layers : list layer) : list layer * list nat :=
  match findLayerById layers graphicsLayerId with
  | Some (path, _) => (layers, path)
  | None => (add (Layer graphicsLayerId None []) layers, [length layers])
  end.

Definition getActiveImageOverlayLayer (layers : list layer)
    : list layer * list nat :=
  match findLayerById layers imageOverlayLayerId with
  | Some (path, _) => (layers, path)
  | None => (add (Layer imageOverlayLayerId None []) layers, [length layers])
  end.

End SingletonLayers.

(** ** Handlers that report to the error sink *)

Module ErrorSinkBursts.
Import ErrorSink.

(** [custom_msg_changed], with [_custom_msg] the value of the model
    attribute: a non-empty message is displayed as it is, without the
    pointer to the browser console. *)
Definition custom_msg_changed (_custom_msg : string) (p : page) : page :=
  if negb (String.eqb _custom_msg "")
  then _displayErrorBox (Some _custom_msg) false p
  else p.

(** Reports delivered one after the other, each with its message and its
    [browser_console_message] argument. *)
Definition deliver (reports : list (option string * bool)) (p : page) : page :=
  foldl (fun acc r => _displayErrorBox r.1 r.2 acc) p reports.

(** The console line of a report. *)
Definition line_of (r : option string * bool) : string :=
  message_box_prefix ++ decorate r.1 r.2.

End ErrorSinkBursts.

(** ** The portal token *)

Module PortalToken.
Import PortalAuth.

(** [portal_token_changed]: a non-empty [_portal_token] is moved out of the
    model into [this._portalToken] and [globalTokenLookup[this.uuid]], and
    the attribute is set to the empty string.  That [set] fires the change
    event of the attribute and so enters this handler once more, which then
    reads the empty string and does nothing. *)
Definition portal_token_changed (w : world) : world :=
  let _portal_token := _portal_token (model w) in
  if truthy _portal_token then
    {| model := {| _auth_mode := _auth_mode (model w);
                   _portal_url := _portal_url (model w);
                   _portal_sharing_rest_url := _portal_sharing_rest_url (model w);
                   PortalAuth._portal_token := "";
                   _username := _username (model w) |};
       uuid := uuid w;
       _portalToken := Some _portal_token;
       globalTokenLookup := <[uuid w := _portal_token]> (globalTokenLookup w);
       _portal := _portal w; lib := lib w;
       awaiting_modules := awaiting_modules w; loading := loading w;
       results := results w |}
  else w.


(** While a [load()] is pending, its portal is not loaded. *)
Definition pending_unloaded (w : world) : Prop :=
  ∀ pc, pc ∈ loading w →
        ∃ po, portals (lib w) !! pc.1 = Some po ∧ loaded po = false.

End PortalToken.

(** ** Branches of the layer type dispatcher *)

Module InferNoTypeLayerBranches.
Import InferNoTypeLayer.

(** The classes a tag can lead to, read off the chain of [dispatch]; a
    descriptor without a known tag can only become the [FeatureLayer] of a
    feature collection. *)
Definition classes_for (t : option string) : list layer_class :=
  if tag_is t "ImageryLayer" then [ImageryLayer; ImageryTileLayer]
  else if tag_is t "KMLLayer" || tag_is t "KML" then [KMLLayer]
  else if tag_is t "ArcGISTiledMapServiceLayer" || tag_is t "TileLayer"
    then [TileLayer]
  else if tag_is t "ArcGISDynamicMapServiceLayer" || tag_is t "MapImageLayer"
    then [MapImageLayer]
  else if tag_is t "VectorTileLayer" then [VectorTileLayer]
  else if tag_is t "WMS" then [WMSLayer]
  else if tag_is t "WebTiledLayer" then [WMTSLayer]
  else if tag_is t "GeoRSS" then [GeoRSSLayer]
  else if tag_is t "GeoJSON" then [GeoJSONLayer]
  else if tag_is t "CSV" then [CSVLayer]
  else if tag_is t "SceneLayer" then [SceneLayer]
  else if tag_is t "PointCloudLayer" then [PointCloudLayer]
  else if tag_is t "IntegratedMeshLayer" then [IntegratedMeshLayer]
  else if tag_is t "BuildingSceneLayer" then [BuildingSceneLayer]
  else [FeatureLayer].

(** [layer.options = noTypeLayer.options] in [add_notype_layer] *)
Definition assign_options (o : option layer_options) (d : descriptor)
    : descriptor :=
  {| type := type d; url := url d; _hashFromPython := _hashFromPython d;
     capabilities := capabilities d; top := top d; options := o;
     options_assigned := true;
     sublayers := sublayers d; data := data d;
     layerDefinition := layerDefinition d; featureSet := featureSet d |}.

(** The first loop of [add_notype_layer]: the descriptors handed to
    [inferNoTypeLayer].  [layers] is the [layers] field of the descriptor,
    [None] when it is absent or falsy; an empty array is truthy. *)
Definition layersToInfer (noTypeLayer : descriptor)
    (layers : option (list descriptor)) : list descriptor :=
  match layers with
  | Some ls => map (assign_options (options noTypeLayer)) ls
  | None => [noTypeLayer]
  end.

(** A helper or vendor environment in which the modules and every layer
    load, and every renderer inference fails with [err]. *)
Definition renderer_fails (err : string) : env :=
  {| loadModules := Fulfilled tt;
     load := fun _ => Fulfilled tt;
     inferRenderer := fun _ _ => Failed err;
     isSmartMapRenderer := fun _ => false;
     createDefaultPopup := fun _ => "popup";
     fromJSON := fun json => json;
     encode_raster := fun json => json;
     createObjectURL := fun _ => "blob:";
     uuid4 := "00000000-0000-4000-8000-000000000000" |}.

End InferNoTypeLayerBranches.

(** ** The time slider handlers *)

Module TimeSlider.

(** [new Date(str)], kept by the string it was made from. *)
Inductive date :=
| DateOf (str : string).

(** The slice of the widget the handlers touch: three model attributes,
    the [mode] and [values] of [this._time_slider], and the page of the
    error sink.  [values] is [null] until the slider is given values
    ([None]); an array slot can hold [undefined] ([None]). *)
Record widget := Widget {
  time_slider : bool;
  time_mode : string;
  _writeonly_start_time : string;
  _writeonly_end_time : string;
  mode : string;
  values : option (list (option date));
  page : ErrorSink.page
}.

Definition set_mode (m : string) (w : widget) : widget :=
  {| time_slider := time_slider w; time_mode := time_mode w;
     _writeonly_start_time := _writeonly_start_time w;
     _writeonly_end_time := _writeonly_end_time w;
     mode := m; values := values w; page := page w |}.

Definition set_values (vs : list (option date)) (w : widget) : widget :=
  {| time_slider := time_slider w; time_mode := time_mode w;
     _writeonly_start_time := _writeonly_start_time w;
     _writeonly_end_time := _writeonly_end_time w;
     mode := mode w; values := Some vs; page := page w |}.

(** The [catch] block: the error box, then two [console.warn] lines.  The
    second line prints the error object, of which only the name is kept. *)
Definition caught (shown logged : string) (w : widget) : widget :=
  {| time_slider := time_slider w; time_mode := time_mode w;
     _writeonly_start_time := _writeonly_start_time w;
     _writeonly_end_time := _writeonly_end_time w;
     mode := mode w; values := values w;
     page := ErrorSink.warn "TypeError"
               (ErrorSink.warn logged (ErrorSink.report shown (page w))) |}.

(** [values[0]] *)
Definition first (vs : list (option date)) : option date :=
  match vs with
  | [] => None
  | v :: _ => v
  end.

Definition time_mode_changed (w : widget) : widget :=
  if time_slider w then
    let timeMode := time_mode w in
    let vals := values w in
    let w := set_mode timeMode w in
    match vals with
    | None =>
        caught "Error while updating time mode"
               "Error while trying updating time mode" w
    | Some vs =>
        if (0 <? length vs)%nat then
          let w := if String.eqb timeMode "instant"
                   then set_values [first vs] w else w in
          let w := if String.eqb timeMode "time-window"
                   then (if (length vs =? 1)%nat
                         then set_values [first vs; first vs] w else w)
                   else w in
          let w := if String.eqb timeMode "cumulative-from-start"
                   then set_values [first vs] w else w in
          if String.eqb timeMode "cumulative-from-end"
          then set_values [first vs] w else w
        else w
    end
  else w.

Definition start_time_changed (w : widget) : widget :=
  let startTime := Some (DateOf (_writeonly_start_time w)) in
  match values w with
  | None =>
      caught "Error while changing `start_time`"
             "Error while changing start_time" w
  | Some vs =>
      let w := if (length vs =? 1)%nat then set_values [startTime] w else w in
      match values w with
      | None => w
      | Some vs' =>
          if (length vs' =? 2)%nat
          then set_values [startTime; default None (vs' !! 1%nat)] w
          else w
      end
  end.

Definition end_time_changed (w : widget) : widget :=
  let endTime := Some (DateOf (_writeonly_end_time w)) in
  match values w with
  | None =>
      caught "Error while changing `end_time`"
             "Error while changing `end_time`" w
  | Some vs => set_values [first vs; endTime] w
  end.

(** The number of values a mode of the slider works with. *)
Definition arity (timeMode : string) : option nat :=
  if String.eqb timeMode "instant" then Some 1%nat
  else if String.eqb timeMode "time-window" then Some 2%nat
  else if String.eqb timeMode "cumulative-from-start" then Some 1%nat
  else if String.eqb timeMode "cumulative-from-end" then Some 1%nat
  else None.

End TimeSlider.

(** * Properties *)

(** ** Image overlays *)

Module ImageOverlayFacts.
Import ImageOverlayLayer.

Definition sample (name : string) : overlay := Overlay name "img" "extent" 1.

(** C9.  Two adjacent overlays whose ids are both listed: the pass removes
    the first, moves on to index 1 of the shortened collection, and stops;
    the second overlay is still there although its id was to be removed. *)
Theorem tryRemoveImageOverlays_keeps_adjacent_match :
  tryRemoveImageOverlays ["a"; "b"] [sample "a"; sample "b"] = [sample "b"]
  ∧ ∃ o, o ∈ tryRemoveImageOverlays ["a"; "b"] [sample "a"; sample "b"]
         ∧ id o ∈ ["a"; "b"].
Proof.
  assert (E : tryRemoveImageOverlays ["a"; "b"] [sample "a"; sample "b"]
              = [sample "b"]) by (vm_compute; reflexivity).
  split; [exact E|]. rewrite E. exists (sample "b"). split.
  - apply list_elem_of_singleton. reflexivity.
  - simpl. set_solver.
Qed.

End ImageOverlayFacts.

(** ** Removing layers *)

Module LayerRemovalFacts.
Import LayerRemoval.
Local Open Scope nat_scope.

(** Induction on a layer, with the property at hand for every layer it
    holds. *)
Fixpoint layer_ind (P : layer → Prop)
    (step : ∀ i u ls, Forall P ls → P (Layer i u ls)) (l : layer) : P l :=
  match l with
  | Layer i u ls =>
      step i u ls
        ((fix all (ls : list layer) : Forall P ls :=
            match ls with
            | [] => List.Forall_nil P
            | x :: rest =>
                @List.Forall_cons _ P x rest (layer_ind P step x) (all rest)
            end) ls)
  end.

Lemma find_from_None within i collection :
  find_from within i collection = None
  ↔ Forall (fun l => within l = None) collection.
Proof.
  revert i. induction collection as [|l rest IH]; intros i; cbn.
  - split; [constructor|done].
  - destruct (within l) as [[path found]|] eqn:E.
    + split; [done|]. intros H. apply Forall_cons in H as [H _]. congruence.
    + rewrite IH. split; [by constructor|]. intros H.
      by apply Forall_cons in H as [_ H].
Qed.

Lemma find_from_Some within i collection path found :
  find_from within i collection = Some (path, found) →
  ∃ j l p, path = (i + j) :: p ∧ collection !! j = Some l
           ∧ within l = Some (p, found).
Proof.
  revert i. induction collection as [|l rest IH]; intros i; cbn; [done|].
  destruct (within l) as [[p f]|] eqn:E.
  - intros [= <- <-]. exists 0, l, p. by rewrite Nat.add_0_r.
  - intros H. destruct (IH _ H) as (j & l' & p & -> & Hj & Hw).
    exists (S j), l', p. split; [f_equal; lia|done].
Qed.

Lemma find_from_app within i collection more :
  find_from within i (collection ++ more)
  = match find_from within i collection with
    | Some r => Some r
    | None => find_from within (i + length collection) more
    end.
Proof.
  revert i. induction collection as [|l rest IH]; intros i; cbn.
  - by rewrite Nat.add_0_r.
  - destruct (within l) as [[p f]|]; [done|].
    rewrite IH. by replace (S i + length rest) with (i + S (length rest)) by lia.
Qed.

Lemma find_in_unfold layerId l :
  find_in layerId l
  = if String.eqb (id l) layerId then Some ([], l)
    else find_from (find_in layerId) 0 (layers l).
Proof. by destruct l. Qed.

Lemma with_descendants_unfold l :
  with_descendants l = l :: (layers l ≫= with_descendants).
Proof. by destruct l. Qed.

Lemma find_in_None layerId l :
  find_in layerId l = None
  ↔ Forall (fun d => id d ≠ layerId) (with_descendants l).
Proof.
  induction l as [i u ls IH] using layer_ind.
  rewrite find_in_unfold, with_descendants_unfold. cbn [id layers].
  rewrite Forall_cons. cbn [id].
  destruct (String.eqb i layerId) eqn:E.
  - apply String.eqb_eq in E. split; [done|]. intros [H _]. done.
  - apply String.eqb_neq in E. rewrite find_from_None, Forall_bind.
    rewrite Forall_forall in IH. rewrite !Forall_forall.
    split.
    + intros H. split; [done|]. intros l Hl. apply IH; [done|]. by apply H.
    + intros [_ H] l Hl. apply IH; [done|]. by apply H.
Qed.

Lemma layer_at_cons collection i path :
  layer_at collection (i :: path)
  = match collection !! i with
    | Some l => descend l path
    | None => None
    end.
Proof. cbn. destruct (collection !! i); [|done]. by destruct path. Qed.

Lemma find_in_Some layerId l path found :
  find_in layerId l = Some (path, found) →
  descend l path = Some found ∧ id found = layerId.
Proof.
  revert path. induction l as [i u ls IH] using layer_ind. intros path.
  rewrite find_in_unfold. cbn [id layers].
  destruct (String.eqb i layerId) eqn:E.
  - intros [= <- <-]. split; [done|]. by apply String.eqb_eq.
  - intros H. apply find_from_Some in H as (j & l & p & -> & Hj & Hw).
    rewrite Forall_forall in IH.
    destruct (IH l (list_elem_of_lookup_2 _ _ _ Hj) _ Hw) as [Hd Hid].
    split; [|done]. unfold descend. rewrite layer_at_cons. cbn [layers Nat.add].
    by rewrite Hj.
Qed.

Lemma find_in_here layerId l found :
  find_in layerId l = Some ([], found) → found = l.
Proof.
  rewrite find_in_unfold. destruct (String.eqb (id l) layerId).
  - by intros [= <-].
  - intros H. by apply find_from_Some in H as (j & l' & p & ? & _).
Qed.

Lemma findLayerById_None collection layerId :
  findLayerById collection layerId = None
  ↔ Forall (fun d => id d ≠ layerId) (allLayers collection).
Proof.
  unfold findLayerById, allLayers. rewrite find_from_None, Forall_bind.
  apply Forall_iff. intros l. apply find_in_None.
Qed.

Lemma findLayerById_Some collection layerId path found :
  findLayerById collection layerId = Some (path, found) →
  layer_at collection path = Some found ∧ id found = layerId.
Proof.
  intros H. apply find_from_Some in H as (j & l & p & -> & Hj & Hw).
  destruct (find_in_Some _ _ _ _ Hw) as [Hd Hid].
  split; [|done]. rewrite layer_at_cons. cbn [Nat.add]. by rewrite Hj.
Qed.

(** What is found is a layer of the map's own collection unless a layer
    held by a group layer bears the id. *)
Lemma findLayerById_top collection layerId path found :
  Forall (fun d => id d ≠ layerId) (nested collection) →
  findLayerById collection layerId = Some (path, found) →
  ∃ j, path = [j] ∧ collection !! j = Some found ∧ id found = layerId.
Proof.
  intros Hn H. apply find_from_Some in H as (j & l & p & -> & Hj & Hw).
  unfold nested in Hn. rewrite Forall_bind, Forall_forall in Hn.
  specialize (Hn l (list_elem_of_lookup_2 _ _ _ Hj)).
  rewrite find_in_unfold in Hw.
  destruct (String.eqb (id l) layerId) eqn:E.
  - injection Hw as <- <-. exists j. split; [done|]. split; [done|].
    by apply String.eqb_eq.
  - exfalso. assert (N : find_from (find_in layerId) 0 (layers l) = None).
    { apply find_from_None. unfold compose in Hn. rewrite Forall_bind in Hn.
      eapply Forall_impl; [exact Hn|]. intros c Hc. by apply find_in_None. }
    congruence.
Qed.

Lemma top_is_in_allLayers collection l :
  l ∈ collection → l ∈ allLayers collection.
Proof.
  intros Hl. unfold allLayers. apply list_elem_of_bind. exists l.
  split; [|done]. rewrite with_descendants_unfold. left.
Qed.

Lemma nested_is_in_allLayers collection d :
  d ∈ nested collection → d ∈ allLayers collection.
Proof.
  unfold nested, allLayers. rewrite !list_elem_of_bind.
  intros (l & Hd & Hl). exists l. split; [|done].
  rewrite with_descendants_unfold. by right.
Qed.

Lemma allLayers_split collection d :
  d ∈ allLayers collection → d ∈ collection ∨ d ∈ nested collection.
Proof.
  unfold nested, allLayers. rewrite !list_elem_of_bind.
  intros (l & Hd & Hl). rewrite with_descendants_unfold in Hd.
  apply elem_of_cons in Hd as [->|Hd]; [by left|]. right. by exists l.
Qed.

Lemma nested_sublist collection collection' d :
  collection' ⊆ collection → d ∈ nested collection' → d ∈ nested collection.
Proof.
  unfold nested. rewrite !list_elem_of_bind. intros Hsub (l & Hd & Hl).
  exists l. split; [done|]. by apply Hsub.
Qed.

Lemma delete_subseteq (collection : list layer) i :
  delete i collection ⊆ collection.
Proof. apply sublist_subseteq, sublist_delete. Qed.

Lemma filter_delete_rejected (P : layer → Prop) `{∀ x, Decision (P x)}
    (collection : list layer) i l :
  collection !! i = Some l → ¬ P l →
  filter P (delete i collection) = filter P collection.
Proof.
  revert i. induction collection as [|x rest IH]; intros [|i] Hi Hl; simplify_eq/=.
  - by rewrite filter_cons_False.
  - rewrite !filter_cons. by rewrite (IH i).
Qed.

Lemma filter_all (P : layer → Prop) `{∀ x, Decision (P x)}
    (collection : list layer) :
  (∀ l, l ∈ collection → P l) → filter P collection = collection.
Proof.
  induction collection as [|x rest IH]; intros Hall; [done|].
  rewrite filter_cons_True by (apply Hall; left).
  f_equal. apply IH. intros l Hl. apply Hall. by right.
Qed.

(** While no layer held by a group layer bears the id, the do-while loop
    comes to its end within one more run of its body than there are
    layers, and leaves exactly the layers bearing another id. *)
Lemma remove_while_exists_filter fuel layerId collection :
  Forall (fun d => id d ≠ layerId) (nested collection) →
  length collection < fuel →
  remove_while_exists fuel layerId collection
  = Some (filter (fun l => id l ≠ layerId) collection).
Proof.
  revert collection. induction fuel as [|fuel IH]; intros collection Hn Hlen;
    [lia|].
  cbn [remove_while_exists].
  destruct (findLayerById collection layerId) as [[path found]|] eqn:F.
  - destruct (findLayerById_top _ _ _ _ Hn F) as (j & -> & Hj & Hid).
    cbn [remove]. rewrite IH.
    + f_equal. apply (filter_delete_rejected _ _ _ _ Hj). intros Hne. by apply Hne.
    + rewrite Forall_forall in Hn |- *. intros d Hd. apply Hn.
      eapply nested_sublist; [apply delete_subseteq|exact Hd].
    + rewrite length_delete by eauto. apply lookup_lt_Some in Hj. lia.
  - f_equal. symmetry. apply filter_all. intros l Hl.
    rewrite findLayerById_None, Forall_forall in F. apply F.
    by apply top_is_in_allLayers.
Qed.

Lemma remove_each_filter fuel ids collection :
  Forall (fun d => id d ∉ ids) (nested collection) →
  length collection < fuel →
  remove_each fuel ids collection
  = Some (filter (fun l => id l ∉ ids) collection).
Proof.
  revert collection. induction ids as [|x ids IH]; intros collection Hn Hlen;
    cbn [remove_each].
  - f_equal. symmetry. apply filter_all. intros l _. apply not_elem_of_nil.
  - rewrite remove_while_exists_filter; [|
      eapply Forall_impl; [exact Hn|]; intros d Hd E; apply Hd; rewrite E; left |done].
    rewrite IH.
    + f_equal. rewrite list_filter_filter.
      apply list_filter_iff. intros l. rewrite not_elem_of_cons. tauto.
    + rewrite Forall_forall in Hn |- *. intros d Hd Hin.
      apply (Hn d); [|by right].
      eapply nested_sublist; [|exact Hd].
      intros l Hl. by apply list_elem_of_filter in Hl as [_ Hl].
    + pose proof (length_filter (fun l => id l ≠ x) collection). lia.
Qed.

Lemma elem_of_delete_other (collection : list layer) i l keep :
  collection !! i = Some l → keep ≠ l → keep ∈ collection →
  keep ∈ delete i collection.
Proof.
  revert i. induction collection as [|x rest IH]; intros [|i] Hi Hne Hk;
    simplify_eq/=.
  - apply elem_of_cons in Hk as [?|?]; [done|done].
  - apply elem_of_cons in Hk as [->|Hk]; [left|right; by apply (IH i)].
Qed.

(** The loop for one id only removes layers bearing that id. *)
Lemma remove_keeps layerId collection path found keep :
  findLayerById collection layerId = Some (path, found) →
  keep ∈ collection → id keep ≠ layerId →
  keep ∈ remove path collection.
Proof.
  intros F Hk Hid. destruct path as [|j [|? ?]]; cbn [remove]; try done.
  apply find_from_Some in F as (j' & l & p & E & Hj & Hw).
  cbn in E. injection E as -> <-.
  pose proof (find_in_here _ _ _ Hw) as ->.
  apply find_in_Some in Hw as [_ Hf].
  apply (elem_of_delete_other _ _ _ _ Hj); [|done]. intros ->. done.
Qed.

Lemma remove_while_exists_keeps fuel layerId collection collection' keep :
  keep ∈ collection → id keep ≠ layerId →
  remove_while_exists fuel layerId collection = Some collection' →
  keep ∈ collection'.
Proof.
  revert collection. induction fuel as [|fuel IH]; intros collection Hk Hid;
    cbn [remove_while_exists]; [done|].
  destruct (findLayerById collection layerId) as [[path found]|] eqn:F.
  - apply IH; [|done]. by apply (remove_keeps _ _ _ _ _ F).
  - by intros [= <-].
Qed.

(** While a layer of the map that bears another id holds a layer bearing
    the id, the do-while loop does not come to an end. *)
Lemma remove_while_exists_endless fuel layerId collection keep d :
  keep ∈ collection → id keep ≠ layerId →
  d ∈ layers keep ≫= with_descendants → id d = layerId →
  remove_while_exists fuel layerId collection = None.
Proof.
  intros Hk Hid Hd Hx. revert collection Hk.
  induction fuel as [|fuel IH]; intros collection Hk;
    cbn [remove_while_exists]; [done|].
  destruct (findLayerById collection layerId) as [[path found]|] eqn:F.
  - apply IH. by apply (remove_keeps _ _ _ _ _ F).
  - exfalso. rewrite findLayerById_None, Forall_forall in F.
    apply (F d); [|done]. apply nested_is_in_allLayers.
    unfold nested. apply list_elem_of_bind. by exists keep.
Qed.

Lemma remove_each_endless fuel ids collection keep d :
  keep ∈ collection → id keep ∉ ids →
  d ∈ layers keep ≫= with_descendants → id d ∈ ids →
  remove_each fuel ids collection = None.
Proof.
  intros Hk Hid Hd. revert collection Hk.
  induction ids as [|x ids IH]; intros collection Hk Hx.
  - by apply elem_of_nil in Hx.
  - cbn [remove_each]. apply not_elem_of_cons in Hid as [Hne Hid].
    destruct (remove_while_exists fuel x collection) as [collection'|] eqn:R;
      [|done].
    apply elem_of_cons in Hx as [Hx|Hx].
    + rewrite (remove_while_exists_endless fuel x collection keep d) in R;
        done.
    + apply IH; [done| |done].
      by apply (remove_while_exists_keeps _ _ _ _ _ Hk Hne R).
Qed.

(** An input the handler never returns on: the map holds a group layer
    that holds the layer to remove. *)
Definition grouped : widget :=
  {| map_layers := [Layer "group" None [Layer "roads" (Some "u") []]];
     _layers_to_remove := ["roads"] |}.

(** C10.  On a map whose group layer holds a layer bearing a listed id,
    [findLayerById] finds that layer, [remove] leaves the map as it is, and
    the do-while loop finds the layer again: however often its body runs,
    [layers_to_remove_changed] has not returned, and the layer is still on
    the map. *)
Theorem layers_to_remove_changed_never_returns_on_a_held_layer :
  findLayerById (map_layers grouped) "roads"
  = Some ([0; 0], Layer "roads" (Some "u") [])
  ∧ remove [0; 0] (map_layers grouped) = map_layers grouped
  ∧ ∀ fuel, layers_to_remove_changed fuel grouped = None.
Proof.
  split; [reflexivity|]. split; [reflexivity|].
  intros fuel. unfold layers_to_remove_changed.
  assert (E : remove_each fuel (_layers_to_remove grouped) (map_layers grouped)
              = None); [|by rewrite E].
  cbn [grouped _layers_to_remove map_layers remove_each].
  assert (L : remove_while_exists fuel "roads"
                [Layer "group" None [Layer "roads" (Some "u") []]] = None);
    [|by rewrite L].
  induction fuel as [|fuel IH]; [reflexivity|].
  cbn [remove_while_exists].
  change (findLayerById [Layer "group" None [Layer "roads" (Some "u") []]] "roads")
    with (Some ([0; 0], Layer "roads" (Some "u") [])).
  exact IH.
Qed.

End LayerRemovalFacts.

(** ** The layer type dispatcher *)

Module InferNoTypeLayerFacts.
Import InferNoTypeLayer.

(** A descriptor that only has a tag, a url and a correlation id. *)
Definition plain (t : option string) (u : string) (hash : string) : descriptor :=
  {| type := t; url := Some u; _hashFromPython := JString hash;
     capabilities := None;
     top := LayerOptions None None None None None;
     options := None; options_assigned := false;
     sublayers := None; data := None;
     layerDefinition := None; featureSet := None |}.

(** An environment in which the modules load and every other promise
    stays pending. *)
Definition modules_loaded : env :=
  {| loadModules := Fulfilled tt;
     load := fun _ => Pending;
     inferRenderer := fun _ _ => Pending;
     isSmartMapRenderer := fun _ => false;
     createDefaultPopup := fun _ => "popup";
     fromJSON := fun json => json;
     encode_raster := fun json => json;
     createObjectURL := fun _ => "blob:";
     uuid4 := "00000000-0000-4000-8000-000000000000" |}.

Lemma id_set_id v l : id (set_id v l) = v.
Proof. reflexivity. Qed.

Lemma id_set_prop k v l : id (set_prop k v l) = id l.
Proof. reflexivity. Qed.

Lemma id_set_opacity o l : id (set_opacity o l) = id l.
Proof. by destruct o. Qed.

Lemma id_set_definitionExpression o l :
  id (set_definitionExpression o l) = id l.
Proof. by destruct o. Qed.

Lemma id_apply_image_service_parameters e isp l :
  id (apply_image_service_parameters e isp l) = id l.
Proof.
  unfold apply_image_service_parameters.
  destruct (renderingRule isp), (mosaicRule isp), (raster isp) as [[]|];
    reflexivity.
Qed.

Create Rewrite HintDb layer_id.
#[local] Hint Rewrite id_set_id id_set_prop id_set_opacity id_set_definitionExpression
  id_apply_image_service_parameters : layer_id.

Ltac tagged :=
  intros; repeat case_match; simplify_eq/=; autorewrite with layer_id;
  reflexivity.

Lemma from_url_tagged c d l :
  from_url c d = Resolved l → id l = _hashFromPython d.
Proof. unfold from_url. tagged. Qed.

Lemma imagery_tagged e d l :
  imagery e d = Resolved l → id l = _hashFromPython d.
Proof. unfold imagery. tagged. Qed.

Lemma wms_tagged d l : wms d = Resolved l → id l = _hashFromPython d.
Proof. unfold wms. tagged. Qed.

Lemma geojson_tagged e d l :
  geojson e d = Resolved l → id l = _hashFromPython d.
Proof. unfold geojson. tagged. Qed.

Lemma csv_tagged e d l : csv e d = Resolved l → id l = _hashFromPython d.
Proof. unfold csv. tagged. Qed.

Lemma feature_layer_tagged e d l :
  feature_layer e d = Resolved l → id l = _hashFromPython d.
Proof. unfold feature_layer. tagged. Qed.

Lemma feature_collection_tagged e d fs l :
  feature_collection e d fs = Resolved l → id l = _hashFromPython d.
Proof. unfold feature_collection. tagged. Qed.

Lemma dispatch_tagged e d l :
  dispatch e d = Resolved l → id l = _hashFromPython d.
Proof.
  unfold dispatch.
  repeat match goal with
         | |- context [if ?b then _ else _] => destruct b
         end;
    eauto using from_url_tagged, imagery_tagged, wms_tagged, geojson_tagged,
      csv_tagged, feature_layer_tagged.
  destruct (featureSet d); [eauto using feature_collection_tagged|done].
Qed.

(** A tag outside the list reaches the end of the chain. *)
Lemma dispatch_unknown_tag e d :
  Forall (fun tag => tag_is (type d) tag = false) known_tags →
  dispatch e d = match featureSet d with
                 | Some fs => feature_collection e d fs
                 | None => Rejected (Message unsupported)
                 end.
Proof.
  unfold known_tags. intros H.
  repeat match goal with
         | H : Forall _ (_ :: _) |- _ => apply Forall_cons in H as [? H]
         end.
  unfold dispatch.
  repeat match goal with
         | E : tag_is _ _ = false |- _ => rewrite E; clear E
         end.
  reflexivity.
Qed.

Lemma tag_is_with_type t tag d :
  tag_is (type (with_type t d)) tag = String.eqb t tag.
Proof. reflexivity. Qed.

(** C3.  A descriptor whose tag equals none of the dispatcher's tags and
    which has no [featureSet]: once the modules are loaded the promise is
    rejected with the string "This layer type is not supported."; however
    the loader fares, the promise is never resolved. *)
Theorem unsupported_type_is_rejected (e : env) (d : descriptor) :
  Forall (fun tag => tag_is (type d) tag = false) known_tags →
  featureSet d = None →
  dispatch e d = Rejected (Message unsupported)
  ∧ (loadModules e = Fulfilled tt →
     inferNoTypeLayer e d = Rejected (Message unsupported))
  ∧ ∀ l, inferNoTypeLayer e d ≠ Resolved l.
Proof.
  intros Htags Hfs.
  assert (E : dispatch e d = Rejected (Message unsupported)).
  { rewrite dispatch_unknown_tag by done. by rewrite Hfs. }
  split; [exact E|]. unfold inferNoTypeLayer. split.
  - intros ->. exact E.
  - intros l. destruct (loadModules e); [by rewrite E|done..].
Qed.

Lemma unsupported_type_is_rejected_witness :
  inferNoTypeLayer modules_loaded (plain (Some "FooLayer") "https://host/x" "h1")
  = Rejected (Message unsupported).
Proof.
  apply (unsupported_type_is_rejected modules_loaded
           (plain (Some "FooLayer") "https://host/x" "h1")).
  - unfold known_tags. repeat constructor.
  - reflexivity.
  - reflexivity.
Defined.

(** C4.  Whatever branch resolves the promise, the resolved layer's [id]
    is the descriptor's [_hashFromPython].  A descriptor tagged
    ["TileLayer"] with a url is resolved, once the modules are loaded, to
    a [TileLayer] built from that url and so tagged, whether or not it has
    a renderer. *)
Theorem resolved_layer_carries_hash (e : env) (d : descriptor) :
  (∀ l, inferNoTypeLayer e d = Resolved l → id l = _hashFromPython d)
  ∧ (∀ u, loadModules e = Fulfilled tt →
          type d = Some "TileLayer" → url d = Some u →
          ∃ l, inferNoTypeLayer e d = Resolved l
               ∧ class l = TileLayer ∧ args l = Url (Some u)
               ∧ id l = _hashFromPython d).
Proof.
  split.
  - intros l. unfold inferNoTypeLayer.
    destruct (loadModules e); [apply dispatch_tagged|done..].
  - intros u Hm Ht Hu. unfold inferNoTypeLayer, dispatch. rewrite Hm, Ht.
    simpl. eexists. split; [reflexivity|]. simpl. by rewrite Hu.
Qed.

Lemma resolved_layer_carries_hash_witness :
  ∃ l, inferNoTypeLayer modules_loaded
         (plain (Some "TileLayer") "https://host/tiles" "h2") = Resolved l
       ∧ class l = TileLayer ∧ args l = Url (Some "https://host/tiles")
       ∧ id l = JString "h2".
Proof.
  apply (proj2 (resolved_layer_carries_hash modules_loaded
                  (plain (Some "TileLayer") "https://host/tiles" "h2"))
               "https://host/tiles"); reflexivity.
Defined.

(** C6, as stated, fails on a case variant: ["tilelayer"] is rejected as
    unsupported although ["TileLayer"] with the same fields resolves to a
    [TileLayer]. *)
Lemma case_variant_is_not_matched :
  let d := plain (Some "tilelayer") "https://host/tiles" "h3" in
  inferNoTypeLayer modules_loaded d = Rejected (Message unsupported)
  ∧ inferNoTypeLayer modules_loaded (with_type "TileLayer" d)
    = Resolved (set_id (JString "h3")
                  (new TileLayer (Url (Some "https://host/tiles")))).
Proof. split; reflexivity. Qed.

(** C6, amended.  Matching is exact string equality against the listed
    tags, which are pairwise different, so at most one branch matches.  The
    legacy names ["ArcGISTiledMapServiceLayer"],
    ["ArcGISDynamicMapServiceLayer"] and ["KML"] settle the promise exactly
    as ["TileLayer"], ["MapImageLayer"] and ["KMLLayer"] do, and
    ["Feature Layer"] takes the [FeatureLayer] branch as ["FeatureLayer"]
    does.  Any other tag, a case variant included, matches nothing and
    falls through to the [featureSet] test and the rejection. *)
Theorem legacy_names_match_exactly (e : env) (d : descriptor) :
  NoDup known_tags
  ∧ inferNoTypeLayer e (with_type "ArcGISTiledMapServiceLayer" d)
    = inferNoTypeLayer e (with_type "TileLayer" d)
  ∧ dispatch e (with_type "TileLayer" d) = from_url TileLayer d
  ∧ inferNoTypeLayer e (with_type "ArcGISDynamicMapServiceLayer" d)
    = inferNoTypeLayer e (with_type "MapImageLayer" d)
  ∧ dispatch e (with_type "MapImageLayer" d) = from_url MapImageLayer d
  ∧ inferNoTypeLayer e (with_type "KML" d)
    = inferNoTypeLayer e (with_type "KMLLayer" d)
  ∧ dispatch e (with_type "KMLLayer" d) = from_url KMLLayer d
  ∧ dispatch e (with_type "Feature Layer" d)
    = feature_layer e (with_type "Feature Layer" d)
  ∧ dispatch e (with_type "FeatureLayer" d)
    = feature_layer e (with_type "FeatureLayer" d)
  ∧ (∀ t, t ∉ known_tags →
          dispatch e (with_type t d)
          = match featureSet d with
            | Some fs => feature_collection e (with_type t d) fs
            | None => Rejected (Message unsupported)
            end).
Proof.
  split.
  { unfold known_tags. apply NoDup_ListNoDup.
    repeat (constructor; [vm_compute; intuition discriminate|]). constructor. }
  repeat split; try reflexivity.
  intros t Ht. rewrite dispatch_unknown_tag; [reflexivity|].
  apply Forall_forall. intros tag Hin. rewrite tag_is_with_type.
  apply String.eqb_neq. intros ->. by apply Ht.
Qed.

Lemma legacy_names_match_exactly_witness :
  dispatch modules_loaded
    (with_type "tilelayer" (plain None "https://host/tiles" "h3"))
  = Rejected (Message unsupported).
Proof.
  apply (proj2 (proj2 (proj2 (proj2 (proj2 (proj2 (proj2 (proj2 (proj2
           (legacy_names_match_exactly modules_loaded
              (plain None "https://host/tiles" "h3")))))))))) "tilelayer").
  unfold known_tags. intros H.
  repeat (apply elem_of_cons in H as [H|H]; [discriminate H|]).
  by apply elem_of_nil in H.
Defined.

End InferNoTypeLayerFacts.

(** ** The error reporting sink *)

Module ErrorSinkFacts.
Import ErrorSink.

(** A page on which no message is displayed. *)
Definition quiet : page :=
  {| textContent := ""; in_document := true; progress_running := false;
     console := [] |}.

Lemma append_nonempty (a b : string) : a ≠ "" → a ++ b ≠ "".
Proof. destruct a; [done|]. discriminate. Qed.

Lemma decorate_nonempty msg flag : decorate msg flag ≠ "".
Proof.
  unfold decorate. destruct msg as [m|]; [|discriminate].
  destruct (String.eqb m "") eqn:E; [discriminate|].
  apply String.eqb_neq in E. destruct flag; [|done].
  by apply append_nonempty.
Qed.

Lemma textContent_stop_attach p :
  textContent (if in_document (stop_progress p) then stop_progress p
               else attach (stop_progress p)) = textContent p.
Proof. by destruct p as [? [] ? ?]. Qed.

Lemma console_stop_attach p :
  console (if in_document (stop_progress p) then stop_progress p
           else attach (stop_progress p)) = console p.
Proof. by destruct p as [? [] ? ?]. Qed.

(** C2, as stated, fails on the first report: with the default second
    argument the box shows the message followed by a pointer to the
    browser console, not the message verbatim. *)
Lemma first_report_is_decorated :
  textContent (report "Error removing layer" quiet)
  = "Error removing layer See the browser console for more info."
  ∧ textContent (report "Error removing layer" quiet) ≠ "Error removing layer".
Proof. split; [reflexivity|discriminate]. Qed.

(** C2, amended.  Two reports in succession on a page that displays no
    message.  The first report shows its decorated text: the default text
    for an absent or empty message, the message followed by
    " See the browser console for more info." when
    [browser_console_message] holds, and the message itself otherwise; it
    writes nothing to the console.  The second report replaces the content
    by the multiple-messages notice and writes to the console the text
    that was displayed (unless that text is the notice itself) and then
    its own decorated text, each behind "*****MESSAGE_BOX: ". *)
Theorem two_reports_in_succession (p : page)
    (msg1 msg2 : option string) (flag1 flag2 : bool) :
  textContent p = "" →
  let p1 := _displayErrorBox msg1 flag1 p in
  let p2 := _displayErrorBox msg2 flag2 p1 in
  textContent p1 = decorate msg1 flag1
  ∧ console p1 = console p
  ∧ textContent p2 = multiple_messages_info
  ∧ console p2
    = (console p
       ++ (if String.eqb (decorate msg1 flag1) multiple_messages_info then []
           else [(message_box_prefix ++ decorate msg1 flag1)%string])
       ++ [(message_box_prefix ++ decorate msg2 flag2)%string])%list.
Proof.
  intros Hquiet p1 p2.
  assert (T1 : textContent p1 = decorate msg1 flag1).
  { unfold p1, _displayErrorBox. rewrite textContent_stop_attach, Hquiet.
    reflexivity. }
  assert (C1 : console p1 = console p).
  { unfold p1, _displayErrorBox. rewrite textContent_stop_attach, Hquiet.
    simpl. apply console_stop_attach. }
  split; [exact T1|]. split; [exact C1|].
  unfold p2, _displayErrorBox.
  rewrite textContent_stop_attach, T1.
  destruct (String.eqb (decorate msg1 flag1) "") eqn:E.
  { apply String.eqb_eq in E. by apply decorate_nonempty in E. }
  split; [reflexivity|].
  destruct (String.eqb (decorate msg1 flag1) multiple_messages_info);
    cbn [console displayPureJSErrorBox warn];
    rewrite console_stop_attach, C1; [reflexivity|].
  by rewrite <- app_assoc.
Qed.

Lemma two_reports_in_succession_witness :
  textContent (report "second" (report "first" quiet)) = multiple_messages_info
  ∧ console (report "second" (report "first" quiet))
    = [ "*****MESSAGE_BOX: first See the browser console for more info.";
        "*****MESSAGE_BOX: second See the browser console for more info." ].
Proof.
  destruct (two_reports_in_succession quiet (Some "first") (Some "second")
              true true eq_refl) as (_ & _ & T & C).
  split; [exact T|exact C].
Defined.

End ErrorSinkFacts.

(** ** The synchronisation bridge *)

Module SyncBridgeFacts.
Import SyncBridge.

Lemma ge_below (q c : Q) : (q < c)%Q → ge (Num q) c = false.
Proof.
  intros Hlt. simpl. destruct (Qle_bool c q) eqn:E; [|done].
  apply Qle_bool_iff in E. by apply Qlt_not_le in Hlt.
Qed.

(** No registration listens on an attribute named [_readonly_...]. *)
Lemma handlers_on_readonly (attr : string) :
  String.prefix "_readonly_" attr = true →
  handlers_on ("change:" ++ attr) = [].
Proof.
  intros Hpre. unfold handlers_on, registrations.
  repeat (rewrite filter_cons_False;
          [|intros E; apply String.eqb_eq in E;
            cbv [String.append fst] in E; injection E as E; subst attr;
            discriminate Hpre]).
  reflexivity.
Qed.

(** A [set] on an attribute nobody listens on changes the stored
    attributes and nothing else. *)
Lemma trigger_unheard attr changed w :
  handlers_on ("change:" ++ attr) = [] → trigger attr changed w = w.
Proof.
  intros E. unfold trigger. rewrite E. destruct changed; [|done].
  rewrite app_nil_r. by destruct w.
Qed.

Lemma set_number_unheard attr get put v w :
  handlers_on ("change:" ++ attr) = [] →
  set_number attr get put v w = with_model (put v (model w)) w.
Proof. intros E. unfold set_number. by rewrite trigger_unheard. Qed.

Lemma set_json_unheard attr get put v w :
  handlers_on ("change:" ++ attr) = [] →
  set_json attr get put v w = with_model (put v (model w)) w.
Proof. intros E. unfold set_json. by rewrite trigger_unheard. Qed.

Ltac unheard :=
  repeat first
    [ rewrite set_number_unheard in * by (by apply handlers_on_readonly)
    | rewrite set_json_unheard in * by (by apply handlers_on_readonly) ].

(** C7.  A negative [_zoom] leaves both views, hence the zoom of the
    active view, as they were, and a [_scale] below 1 does the same for
    the scale; neither handler reports to the error sink. *)
Theorem sentinel_is_not_forwarded (w : widget) (q : Q) :
  (_zoom (model w) = Num q → (q < 0)%Q →
     _MapView (zoom_changed w) = _MapView w
     ∧ _SceneView (zoom_changed w) = _SceneView w
     ∧ zoom (activeView (zoom_changed w)) = zoom (activeView w)
     ∧ page (zoom_changed w) = page w)
  ∧ (_scale (model w) = Num q → (q < 1)%Q →
     _MapView (scale_changed w) = _MapView w
     ∧ _SceneView (scale_changed w) = _SceneView w
     ∧ scale (activeView (scale_changed w)) = scale (activeView w)
     ∧ page (scale_changed w) = page w).
Proof.
  split; intros Hv Hlt.
  - unfold zoom_changed. rewrite Hv, (ge_below _ _ Hlt). unheard.
    by destruct w.
  - unfold scale_changed. rewrite Hv, (ge_below _ _ Hlt). unheard.
    by destruct w.
Qed.

(** A surface that stores what it is assigned and changes nothing else. *)
Definition stores (a : assignment) (x : view) : view :=
  match a with
  | SetZoom v =>
      {| zoom := v; scale := scale x; center := center x; extent := extent x;
         rotation := rotation x; view_camera := view_camera x |}
  | SetScale v =>
      {| zoom := zoom x; scale := v; center := center x; extent := extent x;
         rotation := rotation x; view_camera := view_camera x |}
  end.

(** A widget in 2D mode whose model holds the defaults. *)
Definition at_rest : widget :=
  let v := {| zoom := Num 2; scale := Num 1000; center := Some "{}";
              extent := Some "{}"; rotation := Num 0;
              view_camera := None |} in
  {| model := defaults; synced := defaults; dispatched := [];
     _MapView := v; _SceneView := v; scene_active := false;
     scheduled := [];
     page := ErrorSink.Page "" true false [];
     assign := stores |}.

Lemma sentinel_is_not_forwarded_witness :
  zoom (activeView (zoom_changed at_rest)) = Num 2
  ∧ scale (activeView (scale_changed at_rest)) = Num 1000.
Proof.
  destruct (sentinel_is_not_forwarded at_rest (-1)) as [Hz Hs].
  split.
  - destruct Hz as (_ & _ & E & _); [reflexivity|reflexivity|exact E].
  - destruct Hs as (_ & _ & E & _); [reflexivity|reflexivity|exact E].
Defined.

(** The attributes as [_commonStationaryCallback] leaves them. *)
Definition after_common (w : widget) : attributes :=
  let v := activeView w in
  let m := model w in
  let m := if ge (zoom v) 0 then put_readonly_zoom (zoom v) m else m in
  let m := if ge (scale v) 1 then put_readonly_scale (scale v) m else m in
  let m := match center v with
           | Some c => put_readonly_center c m
           | None => m
           end in
  match extent v with
  | Some x => put_readonly_extent x m
  | None => m
  end.

Lemma activeView_set_number attr get put v w :
  activeView (set_number attr get put v w) = activeView w.
Proof. unfold set_number, trigger. by destruct (negb _). Qed.

Lemma activeView_set_json attr get put v w :
  activeView (set_json attr get put v w) = activeView w.
Proof. unfold set_json, trigger. by destruct (negb _). Qed.

Lemma common_closed_form w :
  _commonStationaryCallback w = save_changes (with_model (after_common w) w).
Proof.
  unfold _commonStationaryCallback, after_common. cbv zeta.
  destruct (ge (zoom (activeView w)) 0);
    rewrite ?activeView_set_number;
    destruct (ge (scale (activeView w)) 1);
    rewrite ?activeView_set_number;
    destruct (center (activeView w));
    rewrite ?activeView_set_json, ?activeView_set_number;
    destruct (extent (activeView w));
    unheard; by destruct w.
Qed.

Lemma common_effect w :
  synced (_commonStationaryCallback w) = after_common w
  ∧ model (_commonStationaryCallback w) = after_common w
  ∧ dispatched (_commonStationaryCallback w) = dispatched w
  ∧ _MapView (_commonStationaryCallback w) = _MapView w
  ∧ _SceneView (_commonStationaryCallback w) = _SceneView w.
Proof. rewrite common_closed_form. by repeat split. Qed.

(** The common callback writes four attributes and no other. *)
Lemma after_common_frame w :
  _zoom (after_common w) = _zoom (model w)
  ∧ _scale (after_common w) = _scale (model w)
  ∧ _readonly_rotation (after_common w) = _readonly_rotation (model w)
  ∧ _readonly_heading (after_common w) = _readonly_heading (model w)
  ∧ _readonly_tilt (after_common w) = _readonly_tilt (model w).
Proof.
  unfold after_common. cbv zeta.
  destruct (ge (zoom _) 0), (ge (scale _) 1), (center _), (extent _);
    by repeat split.
Qed.

Lemma after_common_values w :
  (ge (zoom (activeView w)) 0 = true →
     _readonly_zoom (after_common w) = zoom (activeView w))
  ∧ (ge (scale (activeView w)) 1 = true →
     _readonly_scale (after_common w) = scale (activeView w))
  ∧ (∀ c, center (activeView w) = Some c → _readonly_center (after_common w) = c)
  ∧ (∀ x, extent (activeView w) = Some x → _readonly_extent (after_common w) = x).
Proof.
  unfold after_common. cbv zeta.
  destruct (ge (zoom _) 0), (ge (scale _) 1), (center _), (extent _);
    repeat split; intros; by simplify_eq/=.
Qed.

(** The 2D and 3D callbacks up to their call of the common one. *)
Lemma before_common_2d w :
  _2dStationaryCallback w
  = _commonStationaryCallback
      (if ge (rotation (_MapView w)) 0
       then schedule (ApplyHeading (minus_from 360 (rotation (_MapView w))))
              (with_model
                 (put_readonly_heading (minus_from 360 (rotation (_MapView w)))
                    (put_readonly_rotation (rotation (_MapView w)) (model w)))
                 w)
       else w).
Proof.
  unfold _2dStationaryCallback, apply_heading_to_view. cbv zeta.
  destruct (ge (rotation (_MapView w)) 0); [|reflexivity]. by unheard.
Qed.

Lemma before_common_3d w :
  _3dStationaryCallback w
  = _commonStationaryCallback
      (match view_camera (_SceneView w) with
       | Some cam =>
           with_model
             (put_readonly_tilt (tilt cam)
                (put_readonly_rotation (minus_from 360 (heading cam))
                   (put_readonly_heading (heading cam) (model w))))
             (apply_rotation_to_view (minus_from 360 (heading cam)) w)
       | None => w
       end).
Proof.
  unfold _3dStationaryCallback. cbv zeta.
  destruct (view_camera (_SceneView w)); [|reflexivity]. by unheard.
Qed.

(** C8.  No change handler is registered on any attribute named
    [_readonly_...].  Hence each stationary callback invokes no method
    through a change event, and when it returns every attribute it wrote
    has been committed by [save_changes]: the committed store equals the
    model and holds the values read from the surface. *)
Theorem readonly_attributes_have_no_handler (w : widget) :
  (∀ attr, String.prefix "_readonly_" attr = true →
           handlers_on ("change:" ++ attr) = [])
  ∧ (let w' := _commonStationaryCallback w in
     dispatched w' = dispatched w ∧ synced w' = model w'
     ∧ _MapView w' = _MapView w ∧ _SceneView w' = _SceneView w
     ∧ (ge (zoom (activeView w)) 0 = true →
        _readonly_zoom (synced w') = zoom (activeView w))
     ∧ (ge (scale (activeView w)) 1 = true →
        _readonly_scale (synced w') = scale (activeView w))
     ∧ (∀ c, center (activeView w) = Some c → _readonly_center (synced w') = c)
     ∧ (∀ x, extent (activeView w) = Some x → _readonly_extent (synced w') = x))
  ∧ (let w' := _2dStationaryCallback w in
     dispatched w' = dispatched w ∧ synced w' = model w'
     ∧ (ge (rotation (_MapView w)) 0 = true →
        _readonly_rotation (synced w') = rotation (_MapView w)
        ∧ _readonly_heading (synced w') = minus_from 360 (rotation (_MapView w))))
  ∧ (let w' := _3dStationaryCallback w in
     dispatched w' = dispatched w ∧ synced w' = model w'
     ∧ (∀ cam, view_camera (_SceneView w) = Some cam →
        _readonly_heading (synced w') = heading cam
        ∧ _readonly_rotation (synced w') = minus_from 360 (heading cam)
        ∧ _readonly_tilt (synced w') = tilt cam)).
Proof.
  split; [exact handlers_on_readonly|].
  split; [|split]; cbv zeta.
  - destruct (common_effect w) as (-> & -> & -> & -> & ->).
    destruct (after_common_values w) as (Hz & Hs & Hc & Hx).
    by repeat split.
  - rewrite before_common_2d.
    match goal with
    | |- context [_commonStationaryCallback ?x] =>
        destruct (common_effect x) as (-> & -> & -> & _);
        destruct (after_common_frame x) as (_ & _ & Hr & Hh & _)
    end.
    split; [by destruct (ge (rotation (_MapView w)) 0)|].
    split; [reflexivity|]. intros E. rewrite E in Hr, Hh |- *.
    rewrite Hr, Hh. by split.
  - rewrite before_common_3d.
    match goal with
    | |- context [_commonStationaryCallback ?x] =>
        destruct (common_effect x) as (-> & -> & -> & _);
        destruct (after_common_frame x) as (_ & _ & Hr & Hh & Ht)
    end.
    split; [by destruct (view_camera (_SceneView w))|].
    split; [reflexivity|]. intros cam E. rewrite E in Hr, Hh, Ht |- *.
    rewrite Hr, Hh, Ht. by repeat split.
Qed.

Lemma readonly_attributes_have_no_handler_witness :
  handlers_on "change:_readonly_zoom" = []
  ∧ dispatched (_commonStationaryCallback at_rest) = []
  ∧ _readonly_zoom (synced (_commonStationaryCallback at_rest)) = Num 2.
Proof.
  destruct (readonly_attributes_have_no_handler at_rest)
    as (Hreg & (Hd & _ & _ & _ & Hz & _) & _).
  split; [apply (Hreg "_readonly_zoom"); reflexivity|].
  split; [exact Hd|apply Hz; reflexivity].
Defined.

End SyncBridgeFacts.

(** ** Portal authentication *)

Module PortalAuthFacts.
Import PortalAuth.

Definition anonymous_model : attributes :=
  {| _auth_mode := "anonymous"; _portal_url := "";
     _portal_sharing_rest_url := ""; _portal_token := ""; _username := "" |}.


Definition tokenbased_without_rest_url : attributes :=
  {| _auth_mode := "tokenBased"; _portal_url := "https://host/portal";
     _portal_sharing_rest_url := ""; _portal_token := "t0k3n";
     _username := "user" |}.

(** The call's branch constructs a portal: the mode is one of the three
    and, in token based mode, the three fields are there. *)
Definition will_construct (w : world) : bool :=
  let mode := toLowerCase (_auth_mode (model w)) in
  String.eqb mode "anonymous"
  || (String.eqb mode "tokenbased"
      && (truthy (_portal_url (model w))
          && truthy (_portal_sharing_rest_url (model w))
          && truthy (get_portal_token w)))
  || String.eqb mode "prompt".

Lemma cached_construct_and_load props c w :
  cached (construct_and_load props c w) = None.
Proof.
  unfold cached, construct_and_load. cbn.
  by rewrite list_lookup_middle.
Qed.

Lemma authenticate_body_constructs c w :
  will_construct w = true → cached w = None →
  requests (authenticate_body c w) = S (requests w)
  ∧ cached (authenticate_body c w) = None
  ∧ will_construct (authenticate_body c w) = true
  ∧ awaiting_modules (authenticate_body c w) = awaiting_modules w
  ∧ loading (authenticate_body c w) = (loading w ++ [(requests w, c)])%list
  ∧ results (authenticate_body c w) = results w
  ∧ _portal (authenticate_body c w) = Some (requests w).
Proof.
  intros Hmode Hcached. unfold authenticate_body. rewrite Hcached.
  unfold will_construct in Hmode. cbv zeta in Hmode |- *.
  destruct (String.eqb (toLowerCase (_auth_mode (model w))) "anonymous") eqn:Ea.
  { split; [|split; [apply (cached_construct_and_load _ c _)|]].
    - unfold requests, construct_and_load, set_portalUrl.
      destruct (String.eqb _ ""); cbn; rewrite length_app; cbn; lia.
    - unfold will_construct, construct_and_load, set_portalUrl.
      destruct (String.eqb (_portal_url _) ""); cbn; rewrite Ea;
        by repeat split. }
  destruct (String.eqb (toLowerCase (_auth_mode (model w))) "tokenbased") eqn:Et.
  { cbn in Hmode.
    destruct (truthy (_portal_url (model w))
              && truthy (_portal_sharing_rest_url (model w))
              && truthy (get_portal_token w)) eqn:Ev.
    - cbn. split; [|split; [apply (cached_construct_and_load _ c _)|]].
      + unfold requests, construct_and_load, register_token. cbn.
        rewrite length_app. cbn. lia.
      + unfold will_construct, construct_and_load, register_token. cbn.
        rewrite Ea, Et. unfold get_portal_token in *. cbn. rewrite Ev.
        by repeat split.
    - apply String.eqb_eq in Et. rewrite Et in Hmode. discriminate Hmode. }
  cbn in Hmode. rewrite Hmode.
  split; [|split; [apply (cached_construct_and_load _ c _)|]].
  - unfold requests, construct_and_load, set_portalUrl.
    destruct (String.eqb _ ""); cbn; rewrite length_app; cbn; lia.
  - unfold will_construct, construct_and_load, set_portalUrl.
    destruct (String.eqb (_portal_url _) ""); cbn; rewrite Ea, Et, Hmode;
      by repeat split.
Qed.

Lemma run_calls cs w :
  run w (map Call cs) = with_awaiting (awaiting_modules w ++ cs) w.
Proof.
  revert w. induction cs as [|c cs IH]; intros w; simpl.
  - rewrite app_nil_r. by destruct w.
  - unfold run in IH. rewrite IH. cbn. by rewrite <- app_assoc.
Qed.

Lemma run_app w evs1 evs2 : run w (evs1 ++ evs2) = run (run w evs1) evs2.
Proof. apply foldl_app. Qed.

Lemma run_modules_loaded cs w :
  NoDup cs → (∀ c, c ∈ cs → c ∈ awaiting_modules w) →
  will_construct w = true → cached w = None →
  requests (run w (map ModulesLoaded cs)) = requests w + length cs
  ∧ loading (run w (map ModulesLoaded cs))
    = (loading w ++ zip (seq (requests w) (length cs)) cs)%list
  ∧ results (run w (map ModulesLoaded cs)) = results w.
Proof.
  revert w. induction cs as [|c cs IH]; intros w Hnd Hin Hmode Hcached.
  - cbn. rewrite app_nil_r. repeat split. lia.
  - apply NoDup_cons in Hnd as [Hc Hnd].
    cbn [map run foldl step]. fold (run).
    rewrite bool_decide_eq_true_2 by (apply Hin; left).
    set (w1 := with_awaiting (filter (fun x => x ≠ c) (awaiting_modules w)) w).
    destruct (authenticate_body_constructs c w1 Hmode Hcached)
      as (Hreq & Hcached' & Hmode' & Haw & Hload & Hres & _).
    change (foldl step (authenticate_body c w1) (map ModulesLoaded cs))
      with (run (authenticate_body c w1) (map ModulesLoaded cs)).
    destruct (IH (authenticate_body c w1)) as (R & L & S); try done.
    { intros c' Hc'. rewrite Haw. unfold w1. cbn.
      apply list_elem_of_filter. split.
      - intros ->. by apply Hc.
      - apply Hin. by right. }
    rewrite R, L, S, Hreq, Hload, Hres. unfold w1, requests. cbn.
    repeat split; [lia|]. by rewrite <- app_assoc.
Qed.

(** C1, as stated, fails: a second call made while the first portal is
    still loading constructs and loads a second portal; and with a third
    call made while the second portal is loading, the first two callers
    are resolved with different portals. *)
Lemma concurrent_calls_issue_their_own_requests :
  let w0 := fresh anonymous_model "uuid-1" in
  let w1 := run w0 [Call 1; ModulesLoaded 1] in
  let w2 := run w1 [Call 2; ModulesLoaded 2] in
  let w3 := run w2 [LoadFulfilled 0; Call 3; ModulesLoaded 3; LoadFulfilled 1] in
  (authenticating w1 ∧ requests w1 = 1)
  ∧ (authenticating w2 ∧ requests w2 = 2 ∧ loading w2 = [(0, 1); (1, 2)])
  ∧ (requests w3 = 3
     ∧ results w3 !! 1 = Some (ResolvedWith 1)
     ∧ results w3 !! 2 = Some (ResolvedWith 2)).
Proof.
  cbv zeta. unfold authenticating.
  repeat split; try (vm_compute; reflexivity); vm_compute; discriminate.
Qed.

(** C1, amended.  While no loaded portal is cached, every call whose
    modules have loaded constructs and loads a portal of its own: [n]
    calls made together issue [n] requests, one pending [load()] per
    caller, and settle no promise yet.  When the [load()] a caller waits
    on is fulfilled, the caller is resolved with the portal [this._portal]
    holds at that moment.  Only a call that finds the cached portal loaded
    is resolved with it without a new request. *)
Theorem each_call_constructs_until_a_portal_is_loaded
    (w : world) (cs : list nat) :
  (will_construct w = true → cached w = None → NoDup cs →
     let w' := run w (map Call cs ++ map ModulesLoaded cs) in
     requests w' = requests w + length cs
     ∧ loading w' = (loading w ++ zip (seq (requests w) (length cs)) cs)%list
     ∧ results w' = results w)
  ∧ (∀ p c q, waiting_on p w = [c] → _portal w = Some q →
              results w !! c = None →
              results (step w (LoadFulfilled p)) !! c = Some (ResolvedWith q))
  ∧ (∀ c p, cached w = Some p → results w !! c = None →
            results (authenticate_body c w) !! c = Some (ResolvedWith p)
            ∧ requests (authenticate_body c w) = requests w
            ∧ loading (authenticate_body c w) = loading w).
Proof.
  split; [|split].
  - intros Hmode Hcached Hnd. cbv zeta. rewrite run_app, run_calls.
    apply (run_modules_loaded cs
             (with_awaiting (awaiting_modules w ++ cs) w)); try done.
    intros c Hc. cbn. apply elem_of_app. by right.
  - intros p c q Hwait Hp Hres. cbn [step]. rewrite Hwait. cbn.
    rewrite Hp. unfold settle. cbn. rewrite Hres.
    cbn. apply lookup_insert_eq.
  - intros c p Hcached Hres. unfold authenticate_body. rewrite Hcached.
    unfold settle, requests. cbn. rewrite Hres. cbn.
    by rewrite lookup_insert_eq.
Qed.

Lemma each_call_constructs_until_a_portal_is_loaded_witness :
  requests (run (fresh anonymous_model "uuid-1")
              (map Call [1; 2; 3] ++ map ModulesLoaded [1; 2; 3])) = 3.
Proof.
  destruct (each_call_constructs_until_a_portal_is_loaded
              (fresh anonymous_model "uuid-1") [1; 2; 3]) as (H & _ & _).
  destruct H as (R & _ & _).
  - reflexivity.
  - reflexivity.
  - by apply (bool_decide_unpack _).
  - exact R.
Defined.




End PortalAuthFacts.

(** * Further properties of the embedded code *)

(** ** The removal pass over the image overlays, in general *)

Module ImageOverlaySweep.
Import ImageOverlayLayer.

(** The overlays the pass leaves behind, by recursion on the collection:
    an overlay whose id is listed goes, and the overlay after it stays
    without being looked at. *)
Fixpoint sweep (imageOverlaysToRemove : list string) (l : list overlay)
    : list overlay :=
  match l with
  | [] => []
  | x :: rest =>
      if includes imageOverlaysToRemove (id x) then
        match rest with
        | [] => []
        | y :: rest' => y :: sweep imageOverlaysToRemove rest'
        end
      else x :: sweep imageOverlaysToRemove rest
  end.

Definition listed (imageOverlaysToRemove : list string) (o : overlay) : Prop :=
  id o ∈ imageOverlaysToRemove.

Definition unlisted (imageOverlaysToRemove : list string) (o : overlay) : Prop :=
  id o ∉ imageOverlaysToRemove.

#[global] Instance listed_dec rem o : Decision (listed rem o).
Proof. unfold listed. apply _. Defined.

#[global] Instance unlisted_dec rem o : Decision (unlisted rem o).
Proof. unfold unlisted. apply _. Defined.

#[global] Typeclasses Opaque listed unlisted.

(** No two neighbours of the collection both have a listed id. *)
Fixpoint no_listed_neighbours (imageOverlaysToRemove : list string)
    (l : list overlay) : Prop :=
  match l with
  | [] => True
  | x :: rest =>
      match rest with
      | [] => True
      | y :: _ =>
          ¬ (listed imageOverlaysToRemove x ∧ listed imageOverlaysToRemove y)
      end
      ∧ no_listed_neighbours imageOverlaysToRemove rest
  end.

Lemma includes_true rem x : includes rem x = true ↔ x ∈ rem.
Proof. unfold includes. apply bool_decide_eq_true. Qed.

Lemma includes_false rem x : includes rem x = false ↔ x ∉ rem.
Proof. unfold includes. apply bool_decide_eq_false. Qed.

Lemma sweep_head rem r :
  match r with
  | [] => []
  | y :: r' => y :: sweep rem r'
  end = (take 1 r ++ sweep rem (drop 1 r))%list.
Proof. by destruct r. Qed.

Lemma delete_split (l : list overlay) i x :
  l !! i = Some x →
  take (S i) (delete i l) = (take i l ++ take 1 (drop (S i) l))%list
  ∧ drop (S i) (delete i l) = drop 1 (drop (S i) l).
Proof.
  revert i. induction l as [|a l IH]; intros [|i] Hi; simplify_eq/=.
  - split; [by destruct l|by destruct l].
  - destruct (IH i Hi) as [Ht Hd]. split; [by f_equal|done].
Qed.

(** The loop started at index [i] keeps the first [i] overlays and sweeps
    the others. *)
Lemma removal_loop_sweep rem l i :
  removal_loop rem l i = (take i l ++ sweep rem (drop i l))%list.
Proof.
  funelim (removal_loop rem l i).
  - match goal with
    | E : @eq (option overlay) _ None |- _ =>
        pose proof (proj1 (lookup_ge_None _ _) E)
    end.
    rewrite take_ge, drop_ge by lia. by rewrite app_nil_r.
  - match goal with
    | IH : removal_loop _ _ _ = (_ ++ _)%list |- _ => rewrite IH
    end.
    destruct (delete_split _ _ _ Hget) as [-> ->].
    rewrite (drop_S _ _ _ Hget). cbn [sweep]. rewrite Heq.
    by rewrite sweep_head, app_assoc.
  - match goal with
    | IH : removal_loop _ _ _ = (_ ++ _)%list |- _ => rewrite IH
    end.
    rewrite (take_S_r _ _ _ Hget), (drop_S _ _ _ Hget).
    cbn [sweep]. rewrite Heq. by rewrite <- app_assoc.
Qed.

Lemma tryRemoveImageOverlays_sweep rem l :
  tryRemoveImageOverlays rem l = sweep rem l.
Proof. unfold tryRemoveImageOverlays. by rewrite removal_loop_sweep. Qed.

End ImageOverlaySweep.

Module ImageOverlaySweepFacts.
Import ImageOverlayLayer ImageOverlaySweep.
Local Open Scope nat_scope.

(** Induction along the pass: the cases of [sweep]. *)
Lemma sweep_cases rem (P : list overlay → list overlay → Prop) :
  P [] [] →
  (∀ x, includes rem (id x) = true → P [x] []) →
  (∀ x y r, includes rem (id x) = true →
            P r (sweep rem r) → P (x :: y :: r) (y :: sweep rem r)) →
  (∀ x r, includes rem (id x) = false →
          P r (sweep rem r) → P (x :: r) (x :: sweep rem r)) →
  ∀ l, P l (sweep rem l).
Proof.
  intros Hnil Hone Hskip Hkeep l.
  assert (H : ∀ (n : nat) (l : list overlay),
             (length l ≤ n)%nat → P l (sweep rem l)).
  { clear l. induction n as [|n IH]; intros l Hlen.
    - destruct l; [exact Hnil|simpl in Hlen; lia].
    - destruct l as [|x [|y r]]; [exact Hnil| |]; cbn [sweep];
        destruct (includes rem (id x)) eqn:E.
      + by apply Hone.
      + apply (Hkeep x []); [done|exact Hnil].
      + apply Hskip; [done|]. apply IH. simpl in Hlen. lia.
      + apply (Hkeep x (y :: r)); [done|]. apply IH. simpl in Hlen |- *. lia. }
  by apply (H (length l)).
Qed.

Lemma filter_unlisted_cons_listed rem x (l : list overlay) :
  includes rem (id x) = true →
  filter (unlisted rem) (x :: l) = filter (unlisted rem) l.
Proof.
  intros E. apply filter_cons_False. unfold unlisted.
  apply includes_true in E. tauto.
Qed.

Lemma filter_unlisted_cons_unlisted rem x (l : list overlay) :
  includes rem (id x) = false →
  filter (unlisted rem) (x :: l) = x :: filter (unlisted rem) l.
Proof.
  intros E. apply filter_cons_True. unfold unlisted.
  by apply includes_false in E.
Qed.

Lemma sweep_keeps_unlisted rem l :
  filter (unlisted rem) (sweep rem l) = filter (unlisted rem) l.
Proof.
  apply (sweep_cases rem (fun l s =>
           filter (unlisted rem) s = filter (unlisted rem) l)).
  - done.
  - intros x E. by rewrite filter_unlisted_cons_listed.
  - intros x y r E IH. rewrite (filter_unlisted_cons_listed _ x) by done.
    rewrite !filter_cons, IH. done.
  - intros x r E IH. rewrite !filter_unlisted_cons_unlisted by done.
    by rewrite IH.
Qed.

Lemma sweep_sublist rem l : sweep rem l `sublist_of` l.
Proof.
  apply (sweep_cases rem (fun l s => s `sublist_of` l)).
  - done.
  - intros x _. apply sublist_nil_l.
  - intros x y r _ IH. apply sublist_cons. by apply sublist_skip.
  - intros x r _ IH. by apply sublist_skip.
Qed.

(** X1.  The pass only ever removes overlays whose id is listed: what is
    left is a sub-list of the collection, in the same order, and it still
    holds every overlay whose id is not listed. *)
Theorem tryRemoveImageOverlays_keeps_the_unlisted
    (imageOverlaysToRemove : list string) (imagesToOverlay : list overlay) :
  tryRemoveImageOverlays imageOverlaysToRemove imagesToOverlay
    `sublist_of` imagesToOverlay
  ∧ filter (unlisted imageOverlaysToRemove)
      (tryRemoveImageOverlays imageOverlaysToRemove imagesToOverlay)
    = filter (unlisted imageOverlaysToRemove) imagesToOverlay.
Proof.
  rewrite tryRemoveImageOverlays_sweep.
  split; [apply sweep_sublist|apply sweep_keeps_unlisted].
Qed.

(** X2.  What one pass does, overlay by overlay: when the first overlay's
    id is listed it is removed and the overlay after it is kept without
    being examined; otherwise the first overlay is kept; the pass then goes
    on behind the overlay kept. *)
Theorem tryRemoveImageOverlays_unfold
    (imageOverlaysToRemove : list string) :
  tryRemoveImageOverlays imageOverlaysToRemove [] = []
  ∧ ∀ x l,
      tryRemoveImageOverlays imageOverlaysToRemove (x :: l)
      = if includes imageOverlaysToRemove (id x) then
          match l with
          | [] => []
          | y :: l' => y :: tryRemoveImageOverlays imageOverlaysToRemove l'
          end
        else x :: tryRemoveImageOverlays imageOverlaysToRemove l.
Proof.
  split; [by rewrite tryRemoveImageOverlays_sweep|].
  intros x l. rewrite !tryRemoveImageOverlays_sweep. cbn [sweep].
  destruct (includes _ _); [|done].
  destruct l; [done|]. by rewrite tryRemoveImageOverlays_sweep.
Qed.

(** X3.  When no two neighbouring overlays both have a listed id, one pass
    removes every listed overlay: what is left is exactly the overlays
    whose id is not listed. *)
Theorem tryRemoveImageOverlays_complete_without_listed_neighbours
    (imageOverlaysToRemove : list string) (imagesToOverlay : list overlay) :
  no_listed_neighbours imageOverlaysToRemove imagesToOverlay →
  tryRemoveImageOverlays imageOverlaysToRemove imagesToOverlay
  = filter (unlisted imageOverlaysToRemove) imagesToOverlay.
Proof.
  rewrite tryRemoveImageOverlays_sweep.
  apply (sweep_cases imageOverlaysToRemove (fun l s =>
           no_listed_neighbours imageOverlaysToRemove l →
           s = filter (unlisted imageOverlaysToRemove) l)).
  - done.
  - intros x E _. by rewrite filter_unlisted_cons_listed.
  - intros x y r E IH (Hxy & _ & Hr).
    rewrite (filter_unlisted_cons_listed _ x) by done.
    rewrite filter_unlisted_cons_unlisted.
    + f_equal. by apply IH.
    + apply includes_false. intros Hy. apply Hxy. split; [|done].
      by apply includes_true.
  - intros x r E IH (_ & Hr). rewrite filter_unlisted_cons_unlisted by done.
    f_equal. by apply IH.
Qed.

Lemma tryRemoveImageOverlays_complete_without_listed_neighbours_witness :
  tryRemoveImageOverlays ["a"; "c"]
    [Overlay "a" "i" "e" 1; Overlay "b" "i" "e" 1; Overlay "c" "i" "e" 1]
  = filter (unlisted ["a"; "c"])
      [Overlay "a" "i" "e" 1; Overlay "b" "i" "e" 1; Overlay "c" "i" "e" 1].
Proof.
  apply tryRemoveImageOverlays_complete_without_listed_neighbours.
  cbn. unfold listed. cbn. repeat split.
  - intros [_ H]. apply elem_of_cons in H as [H|H]; [discriminate H|].
    apply elem_of_cons in H as [H|H]; [discriminate H|].
    by apply elem_of_nil in H.
  - intros [H _]. apply elem_of_cons in H as [H|H]; [discriminate H|].
    apply elem_of_cons in H as [H|H]; [discriminate H|].
    by apply elem_of_nil in H.
Defined.

Definition listed_count (rem : list string) (l : list overlay) : nat :=
  length (filter (listed rem) l).

Lemma listed_count_cons_listed rem x l :
  includes rem (id x) = true → listed_count rem (x :: l) = S (listed_count rem l).
Proof.
  intros E. unfold listed_count. rewrite filter_cons_True; [done|].
  by apply includes_true.
Qed.

Lemma listed_count_cons_unlisted rem x l :
  includes rem (id x) = false → listed_count rem (x :: l) = listed_count rem l.
Proof.
  intros E. unfold listed_count. rewrite filter_cons_False; [done|].
  by apply includes_false.
Qed.

Lemma listed_count_cons_le rem x l :
  listed_count rem l ≤ listed_count rem (x :: l)
  ∧ listed_count rem (x :: l) ≤ S (listed_count rem l).
Proof.
  destruct (includes rem (id x)) eqn:E.
  - rewrite listed_count_cons_listed by done. lia.
  - rewrite listed_count_cons_unlisted by done. lia.
Qed.

(** A pass removes at least one listed overlay when there is one. *)
Lemma sweep_progress rem l :
  listed_count rem (sweep rem l) ≤ listed_count rem l
  ∧ (0 < listed_count rem l →
     listed_count rem (sweep rem l) < listed_count rem l).
Proof.
  apply (sweep_cases rem (fun l s =>
           listed_count rem s ≤ listed_count rem l
           ∧ (0 < listed_count rem l → listed_count rem s < listed_count rem l))).
  - split; [done|]. unfold listed_count. cbn. lia.
  - intros x E. rewrite listed_count_cons_listed by done.
    unfold listed_count. cbn. lia.
  - intros x y r E [IH _]. rewrite (listed_count_cons_listed _ x) by done.
    destruct (includes rem (id y)) eqn:Ey.
    + rewrite !(listed_count_cons_listed _ y) by done. lia.
    + rewrite !(listed_count_cons_unlisted _ y) by done. lia.
  - intros x r E [IH1 IH2]. rewrite !listed_count_cons_unlisted by done.
    split; [done|exact IH2].
Qed.

Lemma filter_unlisted_none_listed rem l :
  listed_count rem l = 0 → filter (unlisted rem) l = l.
Proof.
  induction l as [|x l IH]; [done|].
  destruct (includes rem (id x)) eqn:E.
  - rewrite listed_count_cons_listed by done. lia.
  - rewrite listed_count_cons_unlisted, filter_unlisted_cons_unlisted by done.
    intros H. by rewrite IH.
Qed.

Lemma iter_sweep rem n l :
  listed_count rem l ≤ n →
  Nat.iter n (sweep rem) l = filter (unlisted rem) l.
Proof.
  revert l. induction n as [|n IH]; intros l Hn.
  - cbn. symmetry. apply filter_unlisted_none_listed. lia.
  - rewrite Nat.iter_succ_r. rewrite IH.
    + apply sweep_keeps_unlisted.
    + destruct (sweep_progress rem l) as [Hle Hlt].
      destruct (listed_count rem l) eqn:E; [lia|].
      assert (listed_count rem (sweep rem l) < S n0) by (apply Hlt; lia). lia.
Qed.

Lemma iter_tryRemoveImageOverlays rem n l :
  Nat.iter n (tryRemoveImageOverlays rem) l = Nat.iter n (sweep rem) l.
Proof.
  induction n as [|n IH]; [done|].
  rewrite !Nat.iter_succ. by rewrite IH, tryRemoveImageOverlays_sweep.
Qed.

(** X4.  Running the pass again removes overlays a pass left behind: after
    as many passes as the collection has overlays, exactly the overlays
    whose id is not listed remain. *)
Theorem tryRemoveImageOverlays_repeated
    (imageOverlaysToRemove : list string) (imagesToOverlay : list overlay) :
  Nat.iter (length imagesToOverlay)
    (tryRemoveImageOverlays imageOverlaysToRemove) imagesToOverlay
  = filter (unlisted imageOverlaysToRemove) imagesToOverlay.
Proof.
  rewrite iter_tryRemoveImageOverlays. apply iter_sweep.
  unfold listed_count. apply length_filter.
Qed.

End ImageOverlaySweepFacts.

(** ** The layers the widget keeps one instance of
    ([getGraphicsLayer], [getActiveImageOverlayLayer]) *)

Module SingletonLayersFacts.
Import LayerRemoval LayerRemovalFacts SingletonLayers.
Local Open Scope nat_scope.

Lemma findLayerById_add layers layerId other :
  findLayerById (add (Layer layerId None []) layers) other
  = match findLayerById layers other with
    | Some r => Some r
    | None => if String.eqb layerId other
              then Some ([length layers], Layer layerId None [])
              else None
    end.
Proof.
  unfold findLayerById, add. rewrite find_from_app.
  destruct (find_from (find_in other) 0 layers) as [r|]; [done|].
  cbn. by destruct (String.eqb layerId other).
Qed.

Lemma find_or_create layerId layers :
  let r := match findLayerById layers layerId with
           | Some (path, _) => (layers, path)
           | None => (add (Layer layerId None []) layers, [length layers])
           end in
  (∃ l, layer_at r.1 r.2 = Some l ∧ id l = layerId
        ∧ findLayerById r.1 layerId = Some (r.2, l))
  ∧ (∃ created, r.1 = (layers ++ created)%list ∧ length created ≤ 1)
  ∧ ∀ other, other ≠ layerId →
             findLayerById r.1 other = findLayerById layers other.
Proof.
  cbv zeta. destruct (findLayerById layers layerId) as [[path l]|] eqn:F;
    cbn [fst snd].
  - destruct (findLayerById_Some _ _ _ _ F) as [Hi Hid].
    split.
    { exists l. split; [exact Hi|]. split; [exact Hid|exact F]. }
    split; [|done].
    exists []. rewrite app_nil_r. split; [done|cbn; lia].
  - split; [|split].
    + exists (Layer layerId None []).
      split; [cbn [layer_at]; unfold add; by rewrite list_lookup_middle|].
      split; [done|].
      by rewrite findLayerById_add, F, String.eqb_refl.
    + exists [Layer layerId None []]. split; [done|cbn; lia].
    + intros other Hne. rewrite findLayerById_add.
      destruct (String.eqb layerId other) eqn:E.
      * apply String.eqb_eq in E. by subst.
      * by destruct (findLayerById layers other) as [[? ?]|].
Qed.

(** X5.  [getGraphicsLayer] finds the graphics layer or creates it: the
    path it returns leads to a layer bearing the graphics id, which is the
    one [findLayerById] finds from then on; the map gains at most one layer,
    at its end; the lookup of every other id is as before; and a second
    call returns the same layer and adds nothing.  The same holds of
    [getActiveImageOverlayLayer] and its id. *)
Theorem singleton_layers_are_found_or_created (layers : list layer) :
  (let r := getGraphicsLayer layers in
   (∃ l, layer_at r.1 r.2 = Some l ∧ id l = graphicsLayerId
         ∧ findLayerById r.1 graphicsLayerId = Some (r.2, l))
   ∧ (∃ created, r.1 = (layers ++ created)%list ∧ length created ≤ 1)
   ∧ (∀ other, other ≠ graphicsLayerId →
               findLayerById r.1 other = findLayerById layers other)
   ∧ getGraphicsLayer r.1 = r)
  ∧ (let r := getActiveImageOverlayLayer layers in
     (∃ l, layer_at r.1 r.2 = Some l ∧ id l = imageOverlayLayerId
           ∧ findLayerById r.1 imageOverlayLayerId = Some (r.2, l))
     ∧ (∃ created, r.1 = (layers ++ created)%list ∧ length created ≤ 1)
     ∧ (∀ other, other ≠ imageOverlayLayerId →
                 findLayerById r.1 other = findLayerById layers other)
     ∧ getActiveImageOverlayLayer r.1 = r).
Proof.
  split; cbv zeta.
  - destruct (find_or_create graphicsLayerId layers) as (Hf & Hc & Ho).
    fold (getGraphicsLayer layers) in Hf, Hc, Ho.
    repeat split; [exact Hf|exact Hc|exact Ho|].
    destruct Hf as (l & _ & _ & Hfind).
    unfold getGraphicsLayer at 1. rewrite Hfind.
    by destruct (getGraphicsLayer layers).
  - destruct (find_or_create imageOverlayLayerId layers) as (Hf & Hc & Ho).
    fold (getActiveImageOverlayLayer layers) in Hf, Hc, Ho.
    repeat split; [exact Hf|exact Hc|exact Ho|].
    destruct Hf as (l & _ & _ & Hfind).
    unfold getActiveImageOverlayLayer at 1. rewrite Hfind.
    by destruct (getActiveImageOverlayLayer layers).
Qed.

(** X6.  Nothing protects the graphics layer from [_layers_to_remove].
    When its id is listed and no layer held by a group layer bears a listed
    id, [layers_to_remove_changed] returns, within one more run of a loop
    body than the map has layers, with the graphics layer off the map, and
    the next [getGraphicsLayer] creates a new layer at the end of the
    map. *)
Theorem graphics_layer_can_be_removed (w : widget) (fuel : nat) :
  graphicsLayerId ∈ _layers_to_remove w →
  Forall (fun d => id d ∉ _layers_to_remove w) (nested (map_layers w)) →
  length (map_layers w) < fuel →
  ∃ w', layers_to_remove_changed fuel w = Some w'
        ∧ findLayerById (map_layers w') graphicsLayerId = None
        ∧ getGraphicsLayer (map_layers w')
          = (add (Layer graphicsLayerId None []) (map_layers w'),
             [length (map_layers w')]).
Proof.
  intros Hin Hn Hlen. unfold layers_to_remove_changed.
  rewrite (remove_each_filter _ _ _ Hn Hlen). eexists. split; [reflexivity|].
  cbn [map_layers].
  assert (F : findLayerById
                (filter (fun l => id l ∉ _layers_to_remove w) (map_layers w))
                graphicsLayerId = None).
  { apply findLayerById_None, Forall_forall. intros d Hd Hid.
    apply allLayers_split in Hd as [Hd|Hd].
    - apply list_elem_of_filter in Hd as [Hnot _]. apply Hnot. by rewrite Hid.
    - rewrite Forall_forall in Hn. apply (Hn d); [|by rewrite Hid].
      eapply nested_sublist; [|exact Hd].
      intros l Hl. by apply list_elem_of_filter in Hl as [_ Hl]. }
  split; [exact F|]. unfold getGraphicsLayer. by rewrite F.
Qed.

Lemma graphics_layer_can_be_removed_witness :
  ∃ w', layers_to_remove_changed 3
          (Widget [Layer "graphicsLayerId31195" None [];
                   Layer "h1" (Some "u") []]
                  ["graphicsLayerId31195"]) = Some w'
        ∧ getGraphicsLayer (map_layers w')
          = (add (Layer graphicsLayerId None []) (map_layers w'),
             [length (map_layers w')]).
Proof.
  destruct (graphics_layer_can_be_removed
              (Widget [Layer "graphicsLayerId31195" None [];
                       Layer "h1" (Some "u") []]
                      ["graphicsLayerId31195"]) 3) as (w' & R & _ & G).
  - apply list_elem_of_singleton. reflexivity.
  - cbn. constructor.
  - cbn. lia.
  - exists w'. split; [exact R|exact G].
Defined.

End SingletonLayersFacts.

(** ** Which layers [layers_to_remove_changed] can remove *)

Module LayerRemovalReach.
Import LayerRemoval LayerRemovalFacts.
Local Open Scope nat_scope.

(** X29.  While no layer held by a group layer bears a listed id,
    [layers_to_remove_changed] returns, each do-while loop running its body
    at most once more than the map has layers, and leaves exactly the
    layers of the map whose id is not listed, in their order; for every
    listed id [findLayerById] then finds nothing, duplicates included. *)
Theorem layers_to_remove_changed_removes_the_removable
    (w : widget) (fuel : nat) :
  Forall (fun d => id d ∉ _layers_to_remove w) (nested (map_layers w)) →
  length (map_layers w) < fuel →
  layers_to_remove_changed fuel w
  = Some {| map_layers :=
              filter (fun l => id l ∉ _layers_to_remove w) (map_layers w);
            _layers_to_remove := _layers_to_remove w |}
  ∧ Forall (fun layerId =>
              findLayerById
                (filter (fun l => id l ∉ _layers_to_remove w) (map_layers w))
                layerId = None)
           (_layers_to_remove w).
Proof.
  intros Hn Hlen. unfold layers_to_remove_changed.
  rewrite (remove_each_filter _ _ _ Hn Hlen). split; [done|].
  apply Forall_forall. intros layerId Hin.
  apply findLayerById_None, Forall_forall. intros d Hd Hid.
  apply allLayers_split in Hd as [Hd|Hd].
  - apply list_elem_of_filter in Hd as [Hnot _]. apply Hnot. by rewrite Hid.
  - rewrite Forall_forall in Hn. apply (Hn d); [|by rewrite Hid].
    eapply nested_sublist; [|exact Hd].
    intros l Hl. by apply list_elem_of_filter in Hl as [_ Hl].
Qed.

Lemma layers_to_remove_changed_removes_the_removable_witness :
  layers_to_remove_changed 4
    (Widget [Layer "a" None []; Layer "group" None [Layer "b" None []];
             Layer "a" (Some "u") []] ["a"; "c"])
  = Some (Widget [Layer "group" None [Layer "b" None []]] ["a"; "c"]).
Proof.
  destruct (layers_to_remove_changed_removes_the_removable
              (Widget [Layer "a" None []; Layer "group" None [Layer "b" None []];
                       Layer "a" (Some "u") []] ["a"; "c"]) 4) as [E _].
  - cbn. apply Forall_singleton. cbn. intros H.
    apply elem_of_cons in H as [H|H]; [discriminate|].
    apply list_elem_of_singleton in H. discriminate.
  - cbn. lia.
  - rewrite E. vm_compute. reflexivity.
Defined.

(** X30.  When a layer of the map whose id is not listed holds, at any
    depth, a layer bearing a listed id, [layers_to_remove_changed] never
    returns, however often the loop bodies run. *)
Theorem layers_to_remove_changed_never_returns
    (w : widget) (keep d : layer) :
  keep ∈ map_layers w → id keep ∉ _layers_to_remove w →
  d ∈ layers keep ≫= with_descendants → id d ∈ _layers_to_remove w →
  ∀ fuel, layers_to_remove_changed fuel w = None.
Proof.
  intros Hk Hid Hd Hx fuel. unfold layers_to_remove_changed.
  by rewrite (remove_each_endless fuel _ _ keep d).
Qed.

Lemma layers_to_remove_changed_never_returns_witness :
  layers_to_remove_changed 1000
    (Widget [Layer "a" None [];
             Layer "group" None [Layer "inner" None [Layer "b" None []]]]
            ["a"; "b"])
  = None.
Proof.
  apply (layers_to_remove_changed_never_returns _
           (Layer "group" None [Layer "inner" None [Layer "b" None []]])
           (Layer "b" None [])).
  - cbn. right. left.
  - cbn. intros H. apply elem_of_cons in H as [H|H]; [discriminate|].
    apply list_elem_of_singleton in H. discriminate.
  - cbn. right. left.
  - cbn. right. left.
Defined.

End LayerRemovalReach.

(** ** More on the error sink ([custom_msg_changed], bursts of reports) *)

Module ErrorSinkBurstsFacts.
Import ErrorSink ErrorSinkBursts.

Lemma report_on_quiet msg flag p :
  textContent p = "" →
  textContent (_displayErrorBox msg flag p) = decorate msg flag
  ∧ console (_displayErrorBox msg flag p) = console p.
Proof.
  intros Hq. unfold _displayErrorBox.
  rewrite ErrorSinkFacts.textContent_stop_attach, Hq. cbn.
  split; [done|apply ErrorSinkFacts.console_stop_attach].
Qed.

Lemma report_on_busy msg flag p :
  textContent p ≠ "" →
  textContent (_displayErrorBox msg flag p) = multiple_messages_info
  ∧ console (_displayErrorBox msg flag p)
    = (console p
       ++ (if String.eqb (textContent p) multiple_messages_info then []
           else [(message_box_prefix ++ textContent p)%string])
       ++ [(message_box_prefix ++ decorate msg flag)%string])%list.
Proof.
  intros Hb. unfold _displayErrorBox.
  rewrite ErrorSinkFacts.textContent_stop_attach.
  destruct (String.eqb (textContent p) "") eqn:E.
  { apply String.eqb_eq in E. done. }
  split; [done|].
  destruct (String.eqb (textContent p) multiple_messages_info);
    cbn [console displayPureJSErrorBox warn];
    rewrite ErrorSinkFacts.console_stop_attach; [done|].
  by rewrite <- app_assoc.
Qed.

Lemma deliver_on_notice reports p :
  textContent p = multiple_messages_info →
  textContent (deliver reports p) = multiple_messages_info
  ∧ console (deliver reports p) = (console p ++ map line_of reports)%list.
Proof.
  revert p. induction reports as [|r reports IH]; intros p Hn.
  - cbn. by rewrite app_nil_r.
  - cbn [deliver foldl]. fold (deliver reports (_displayErrorBox r.1 r.2 p)).
    destruct (report_on_busy r.1 r.2 p) as [T C].
    { rewrite Hn. discriminate. }
    destruct (IH _ T) as [T' C']. split; [exact T'|].
    rewrite C', C, Hn, String.eqb_refl. cbn. by rewrite <- app_assoc.
Qed.

(** X7.  A burst of two or more reports on a page that displays no
    message ends with the multiple-messages notice in the box, and every
    report of the burst has its line on the console exactly once and in
    the order of arrival; only a first report whose text is the notice
    itself is not logged. *)
Theorem burst_is_logged_in_order (p : page)
    (first second : option string * bool)
    (others : list (option string * bool)) :
  textContent p = "" →
  textContent (deliver (first :: second :: others) p) = multiple_messages_info
  ∧ console (deliver (first :: second :: others) p)
    = (console p
       ++ (if String.eqb (decorate first.1 first.2) multiple_messages_info
           then [] else [line_of first])
       ++ map line_of (second :: others))%list.
Proof.
  intros Hq. cbn [deliver foldl].
  destruct (report_on_quiet first.1 first.2 p Hq) as [T1 C1].
  destruct (report_on_busy second.1 second.2 (_displayErrorBox first.1 first.2 p))
    as [T2 C2].
  { rewrite T1. apply ErrorSinkFacts.decorate_nonempty. }
  fold (deliver others
          (_displayErrorBox second.1 second.2 (_displayErrorBox first.1 first.2 p))).
  destruct (deliver_on_notice others _ T2) as [T C].
  split; [exact T|]. rewrite C, C2, T1, C1. cbn [map]. unfold line_of at 3.
  by rewrite <- !app_assoc.
Qed.

Lemma burst_is_logged_in_order_witness :
  console (deliver [(Some "one", true); (None, true); (Some "three", false)]
             ErrorSinkFacts.quiet)
  = [ "*****MESSAGE_BOX: one See the browser console for more info.";
      "*****MESSAGE_BOX: Unhandled Error! See the browser console for more info.";
      "*****MESSAGE_BOX: three" ].
Proof.
  destruct (burst_is_logged_in_order ErrorSinkFacts.quiet
              (Some "one", true) (None, true) [(Some "three", false)] eq_refl)
    as [_ C].
  exact C.
Defined.

(** X8.  Whatever the page and the report, after [_displayErrorBox] the
    box is attached to the document and is not empty, the progress display
    is stopped, and the lines already on the console are still there. *)
Theorem report_leaves_a_message (p : page) (msg : option string) (flag : bool) :
  textContent (_displayErrorBox msg flag p) ≠ ""
  ∧ in_document (_displayErrorBox msg flag p) = true
  ∧ progress_running (_displayErrorBox msg flag p) = false
  ∧ console p `prefix_of` console (_displayErrorBox msg flag p).
Proof.
  destruct (String.eqb (textContent p) "") eqn:E.
  - apply String.eqb_eq in E.
    destruct (report_on_quiet msg flag p E) as [T C].
    split; [rewrite T; apply ErrorSinkFacts.decorate_nonempty|].
    split; [|split; [|by rewrite C]];
      unfold _displayErrorBox;
      rewrite ErrorSinkFacts.textContent_stop_attach, E;
      by destruct p as [? [] ? ?].
  - apply String.eqb_neq in E.
    destruct (report_on_busy msg flag p E) as [T C].
    split; [rewrite T; discriminate|].
    split; [|split; [|rewrite C; by apply prefix_app_r]];
      unfold _displayErrorBox;
      rewrite ErrorSinkFacts.textContent_stop_attach;
      apply String.eqb_neq in E; rewrite E;
      by destruct p as [? [] ? ?], (String.eqb _ multiple_messages_info).
Qed.

(** X9.  [custom_msg_changed] shows a non-empty [_custom_msg] verbatim on
    a page that displays no message and writes nothing to the console; an
    empty [_custom_msg] leaves the page as it is. *)
Theorem custom_message_is_shown_verbatim (p : page) (_custom_msg : string) :
  custom_msg_changed "" p = p
  ∧ (textContent p = "" → _custom_msg ≠ "" →
     textContent (custom_msg_changed _custom_msg p) = _custom_msg
     ∧ console (custom_msg_changed _custom_msg p) = console p).
Proof.
  split; [reflexivity|]. intros Hq Hne. unfold custom_msg_changed.
  apply String.eqb_neq in Hne. rewrite Hne. cbn [negb].
  destruct (report_on_quiet (Some _custom_msg) false p Hq) as [T C].
  split; [|exact C]. rewrite T. unfold decorate. by rewrite Hne.
Qed.

Lemma custom_message_is_shown_verbatim_witness :
  textContent (custom_msg_changed "Layer added" ErrorSinkFacts.quiet)
  = "Layer added".
Proof.
  destruct (custom_message_is_shown_verbatim ErrorSinkFacts.quiet "Layer added")
    as [_ H].
  destruct H as [T _]; [reflexivity|discriminate|exact T].
Defined.

End ErrorSinkBurstsFacts.

(** ** More on the synchronisation bridge *)

Module SyncBridgeRoundTrips.
Import SyncBridge SyncBridgeFacts.

Lemma ge_from (q c : Q) : (c <= q)%Q → ge (Num q) c = true.
Proof. intros H. by apply Qle_bool_iff. Qed.

Lemma zoom_changed_closed_form w :
  zoom_changed w
  = save_changes
      (let w1 := with_model (put_readonly_zoom (_zoom (model w)) (model w)) w in
       if ge (_zoom (model w)) 0
       then on_activeView (assign w (SetZoom (_zoom (model w)))) w1
       else w1).
Proof. unfold zoom_changed. cbv zeta. by unheard. Qed.

Lemma scale_changed_closed_form w :
  scale_changed w
  = (let w1 := save_changes
                 (with_model (put_readonly_scale (_scale (model w)) (model w)) w) in
     if ge (_scale (model w)) 1
     then on_activeView (assign w (SetScale (_scale (model w)))) w1
     else w1).
Proof. unfold scale_changed. cbv zeta. by unheard. Qed.

(** X11.  The store-to-surface handlers mirror the attribute into its
    read-only twin and commit it whatever its value: after [zoom_changed]
    the committed [_readonly_zoom] is [_zoom], the sentinel included, and
    after [scale_changed] the committed [_readonly_scale] is [_scale].  The
    sentinel test guards the surface only. *)
Theorem handlers_mirror_every_value (w : widget) :
  _readonly_zoom (synced (zoom_changed w)) = _zoom (model w)
  ∧ synced (zoom_changed w) = model (zoom_changed w)
  ∧ _readonly_scale (synced (scale_changed w)) = _scale (model w)
  ∧ synced (scale_changed w) = model (scale_changed w)
  ∧ dispatched (zoom_changed w) = dispatched w
  ∧ dispatched (scale_changed w) = dispatched w.
Proof.
  rewrite zoom_changed_closed_form, scale_changed_closed_form. cbv zeta.
  unfold on_activeView.
  destruct (ge (_zoom (model w)) 0), (ge (_scale (model w)) 1),
    w as [? ? ? ? ? [] ? ? ?]; by repeat split.
Qed.

(** X12.  Each stationary callback drives the other view only.  The 2D
    callback with a rotation of at least 0 commits that rotation, asks for
    exactly one heading to be applied to the scene view, the heading it
    commits as [_readonly_heading], and assigns nothing to the 2D view's
    rotation; with a negative rotation or [NaN] it does what the common
    callback does and nothing more.  The 3D callback with a camera commits
    the camera's heading, asks for no heading and leaves the scene view as
    it is; without a camera it does what the common callback does and
    nothing more. *)
Theorem linked_views_get_what_is_committed (w : widget) :
  (ge (rotation (_MapView w)) 0 = true →
     let w' := _2dStationaryCallback w in
     _readonly_rotation (synced w') = rotation (_MapView w)
     ∧ rotation (_MapView w') = rotation (_MapView w)
     ∧ scheduled w'
       = (scheduled w ++ [ApplyHeading (_readonly_heading (synced w'))])%list)
  ∧ (ge (rotation (_MapView w)) 0 = false →
     _2dStationaryCallback w = _commonStationaryCallback w)
  ∧ (∀ cam, view_camera (_SceneView w) = Some cam →
     let w' := _3dStationaryCallback w in
     _readonly_heading (synced w') = heading cam
     ∧ _SceneView w' = _SceneView w
     ∧ scheduled w' = scheduled w)
  ∧ (view_camera (_SceneView w) = None →
     _3dStationaryCallback w = _commonStationaryCallback w).
Proof.
  split; [|split; [|split]].
  - intros Hge. cbv zeta. rewrite before_common_2d, Hge.
    match goal with
    | |- context [_commonStationaryCallback ?x] =>
        destruct (common_effect x) as (-> & _ & _ & -> & _);
        destruct (after_common_frame x) as (_ & _ & -> & -> & _);
        rewrite (common_closed_form x)
    end.
    by repeat split.
  - intros Hge. by rewrite before_common_2d, Hge.
  - intros cam Hc. cbv zeta. rewrite before_common_3d, Hc.
    match goal with
    | |- context [_commonStationaryCallback ?x] =>
        destruct (common_effect x) as (-> & _ & _ & _ & ->);
        destruct (after_common_frame x) as (_ & _ & _ & -> & _);
        rewrite (common_closed_form x)
    end.
    by repeat split.
  - intros Hc. by rewrite before_common_3d, Hc.
Qed.

Lemma linked_views_get_what_is_committed_witness :
  let w := with_MapView (put_rotation (Num 90) (_MapView at_rest)) at_rest in
  _readonly_rotation (synced (_2dStationaryCallback w)) = Num 90
  ∧ scheduled (_2dStationaryCallback w) = [ApplyHeading (Num 270)].
Proof.
  cbv zeta.
  destruct (linked_views_get_what_is_committed
              (with_MapView (put_rotation (Num 90) (_MapView at_rest)) at_rest))
    as [H _].
  destruct H as (E & _ & Hs); [reflexivity|].
  split; [exact E|]. rewrite Hs. vm_compute. reflexivity.
Defined.

(** X13.  The three stationary callbacks never write [_zoom] or [_scale],
    never change the zoom, scale, center or extent of either view, never
    switch the active view and never report to the error sink: a surface
    event cannot come back to the surface through them. *)
Theorem stationary_callbacks_leave_the_inputs_alone (w : widget) :
  Forall (fun cb : widget → widget =>
            _zoom (model (cb w)) = _zoom (model w)
            ∧ _scale (model (cb w)) = _scale (model w)
            ∧ zoom (_MapView (cb w)) = zoom (_MapView w)
            ∧ scale (_MapView (cb w)) = scale (_MapView w)
            ∧ center (_MapView (cb w)) = center (_MapView w)
            ∧ extent (_MapView (cb w)) = extent (_MapView w)
            ∧ _SceneView (cb w) = _SceneView w
            ∧ scene_active (cb w) = scene_active w
            ∧ page (cb w) = page w)
         [_commonStationaryCallback; _2dStationaryCallback;
          _3dStationaryCallback].
Proof.
  repeat apply Forall_cons_2; [| | |apply Forall_nil_2].
  - destruct (common_effect w) as (_ & -> & _ & -> & ->).
    destruct (after_common_frame w) as (-> & -> & _).
    rewrite common_closed_form. by repeat split.
  - rewrite before_common_2d.
    match goal with
    | |- context [_commonStationaryCallback ?x] =>
        destruct (common_effect x) as (_ & -> & _ & -> & ->);
        destruct (after_common_frame x) as (-> & -> & _);
        rewrite (common_closed_form x)
    end.
    by destruct (ge (rotation (_MapView w)) 0).
  - rewrite before_common_3d.
    match goal with
    | |- context [_commonStationaryCallback ?x] =>
        destruct (common_effect x) as (_ & -> & _ & -> & ->);
        destruct (after_common_frame x) as (-> & -> & _);
        rewrite (common_closed_form x)
    end.
    by destruct (view_camera (_SceneView w)).
Qed.

(** X14.  The common stationary callback is idempotent: while the surface
    stays as it is, a second stationary event leaves the widget, model and
    committed store included, exactly as the first one left it. *)
Theorem common_callback_is_idempotent (w : widget) :
  _commonStationaryCallback (_commonStationaryCallback w)
  = _commonStationaryCallback w.
Proof.
  rewrite (common_closed_form (_commonStationaryCallback w)).
  rewrite (common_closed_form w).
  unfold after_common, activeView. cbv zeta.
  destruct w as [m s d mv sv [] sch pg]; cbn;
    destruct (ge (zoom _) 0), (ge (scale _) 1), (center _), (extent _);
    reflexivity.
Qed.

End SyncBridgeRoundTrips.

(** ** The portal token ([portal_token_changed]) *)

Module PortalTokenFacts.
Import PortalAuth PortalToken PortalAuthFacts.
Local Open Scope nat_scope.

Lemma truthy_nonempty s : s ≠ "" → truthy s = true.
Proof. intros H. unfold truthy. apply String.eqb_neq in H. by rewrite H. Qed.

(** X15.  [portal_token_changed] hands a non-empty token over: afterwards
    the model's [_portal_token] is empty, [get_portal_token] returns the
    token, and [globalTokenLookup] holds it under the widget's uuid, so that
    any other view of the same uuid that has no token of its own gets it
    too.  Running the handler once more changes nothing. *)
Theorem token_is_moved_out_of_the_model (w : world) (t : string) :
  _portal_token (model w) = t → t ≠ "" →
  let w' := portal_token_changed w in
  _portal_token (model w') = ""
  ∧ get_portal_token w' = t
  ∧ globalTokenLookup w' !! uuid w = Some t
  ∧ portal_token_changed w' = w'
  ∧ (∀ v, uuid v = uuid w → globalTokenLookup v = globalTokenLookup w' →
          _portalToken v = None → get_portal_token v = t).
Proof.
  intros Ht Hne. cbv zeta. unfold portal_token_changed.
  rewrite Ht, (truthy_nonempty t Hne). cbn.
  repeat split.
  - unfold get_portal_token. cbn. by rewrite (truthy_nonempty t Hne).
  - apply lookup_insert_eq.
  - intros v Hu Hg Hn. unfold get_portal_token. rewrite Hn, Hg, Hu.
    by rewrite lookup_insert_eq.
Qed.

Lemma token_is_moved_out_of_the_model_witness :
  let w := fresh tokenbased_without_rest_url "uuid-1" in
  _portal_token (model (portal_token_changed w)) = ""
  ∧ get_portal_token (portal_token_changed w) = "t0k3n".
Proof.
  cbv zeta.
  destruct (token_is_moved_out_of_the_model
              (fresh tokenbased_without_rest_url "uuid-1") "t0k3n")
    as (A & B & _); [reflexivity|discriminate|].
  split; [exact A|exact B].
Defined.

(** X16.  Token based authentication after the hand-over.  With the
    portal url and the sharing REST url set and no loaded portal cached, a
    call that follows [portal_token_changed] registers the server with its
    [generateToken] endpoint, registers the token for [_username], trusts
    the portal url, and constructs and loads a portal for that url,
    although the model no longer holds the token. *)
Theorem tokenbased_uses_the_token_handed_over (w : world) (c : nat) (t : string) :
  cached w = None →
  toLowerCase (_auth_mode (model w)) = "tokenbased" →
  _portal_url (model w) ≠ "" → _portal_sharing_rest_url (model w) ≠ "" →
  _portal_token (model w) = t → t ≠ "" →
  let w' := authenticate_body c (portal_token_changed w) in
  _portal_token (model w') = ""
  ∧ registeredServers (lib w')
    = (registeredServers (lib w)
       ++ [(_portal_sharing_rest_url (model w),
            (_portal_sharing_rest_url (model w) ++ "generateToken")%string)])%list
  ∧ registeredTokens (lib w')
    = (registeredTokens (lib w)
       ++ [(_portal_sharing_rest_url (model w), _username (model w), t)])%list
  ∧ trustedServers (lib w')
    = (trustedServers (lib w) ++ [_portal_url (model w)])%list
  ∧ portals (lib w')
    = (portals (lib w) ++ [Portal (WithUrl (_portal_url (model w))) false])%list
  ∧ _portal w' = Some (requests w)
  ∧ loading w' = (loading w ++ [(requests w, c)])%list
  ∧ results w' = results w.
Proof.
  intros Hc Hm Hu Hr Ht Hne. cbv zeta. unfold portal_token_changed.
  rewrite Ht, (truthy_nonempty t Hne).
  unfold authenticate_body, cached in *. cbn. rewrite Hc. cbv zeta. cbn.
  rewrite Hm. cbn [String.eqb Ascii.eqb Bool.eqb].
  unfold get_portal_token. cbn.
  rewrite (truthy_nonempty t Hne), (truthy_nonempty _ Hu),
    (truthy_nonempty _ Hr). cbn.
  rewrite ?(truthy_nonempty t Hne). cbn.
  by repeat split.
Qed.

Lemma tokenbased_uses_the_token_handed_over_witness :
  let a := {| _auth_mode := "tokenBased"; _portal_url := "https://host/portal";
              _portal_sharing_rest_url := "https://host/portal/sharing/rest/";
              _portal_token := "t0k3n"; _username := "user" |} in
  registeredTokens
    (lib (authenticate_body 1 (portal_token_changed (fresh a "uuid-1"))))
  = [("https://host/portal/sharing/rest/", "user", "t0k3n")].
Proof.
  cbv zeta.
  destruct (tokenbased_uses_the_token_handed_over
              (fresh {| _auth_mode := "tokenBased";
                        _portal_url := "https://host/portal";
                        _portal_sharing_rest_url :=
                          "https://host/portal/sharing/rest/";
                        _portal_token := "t0k3n"; _username := "user" |}
                     "uuid-1") 1 "t0k3n")
    as (_ & _ & T & _);
    [reflexivity|reflexivity|discriminate|discriminate|reflexivity
    |discriminate|].
  exact T.
Defined.

(** X17.  While no loaded portal is cached, a call whose promise is not
    yet settled and whose mode is none of the three, the model's default
    empty [_auth_mode] among them, is rejected with the message that lists
    the three modes: no portal is constructed, nothing is registered and
    [esriConfig] is not touched. *)
Theorem unknown_mode_is_rejected (w : world) (c : nat) :
  cached w = None → results w !! c = None →
  toLowerCase (_auth_mode (model w)) ≠ "anonymous" →
  toLowerCase (_auth_mode (model w)) ≠ "tokenbased" →
  toLowerCase (_auth_mode (model w)) ≠ "prompt" →
  results (authenticate_body c w) !! c = Some (RejectedWith bad_mode_message)
  ∧ lib (authenticate_body c w) = lib w
  ∧ _portal (authenticate_body c w) = _portal w
  ∧ loading (authenticate_body c w) = loading w.
Proof.
  intros Hc Hres Ha Ht Hp. unfold authenticate_body. rewrite Hc. cbv zeta.
  apply String.eqb_neq in Ha, Ht, Hp. rewrite Ha, Ht, Hp.
  unfold settle. cbn. rewrite Hres. repeat split. apply lookup_insert_eq.
Qed.

Lemma unknown_mode_is_rejected_witness :
  let a := {| _auth_mode := ""; _portal_url := "";
              _portal_sharing_rest_url := ""; _portal_token := "";
              _username := "" |} in
  results (authenticate_body 0 (fresh a "uuid-1")) !! 0
  = Some (RejectedWith bad_mode_message).
Proof.
  cbv zeta.
  destruct (unknown_mode_is_rejected
              (fresh {| _auth_mode := ""; _portal_url := "";
                        _portal_sharing_rest_url := ""; _portal_token := "";
                        _username := "" |} "uuid-1") 0)
    as (R & _);
    [reflexivity|reflexivity|discriminate|discriminate|discriminate|].
  exact R.
Defined.

(** X18.  While no loaded portal is cached, a call in the anonymous or
    the prompt mode registers no server and no token and adds no trusted
    server; [esriConfig.portalUrl] becomes [_portal_url] when that is not
    empty and stays as it was otherwise; and the call constructs one
    portal, which in the prompt mode is authorised for exactly that url. *)
Theorem anonymous_and_prompt_register_nothing (w : world) (c : nat) :
  cached w = None →
  (toLowerCase (_auth_mode (model w)) = "anonymous"
   ∨ toLowerCase (_auth_mode (model w)) = "prompt") →
  let w' := authenticate_body c w in
  let effective := if String.eqb (_portal_url (model w)) ""
                   then portalUrl (lib w) else _portal_url (model w) in
  registeredServers (lib w') = registeredServers (lib w)
  ∧ registeredTokens (lib w') = registeredTokens (lib w)
  ∧ trustedServers (lib w') = trustedServers (lib w)
  ∧ portalUrl (lib w') = effective
  ∧ portals (lib w')
    = (portals (lib w)
       ++ [Portal (if String.eqb (toLowerCase (_auth_mode (model w))) "prompt"
                   then Immediate [effective] else Anonymous) false])%list.
Proof.
  intros Hc [Hm|Hm]; cbv zeta; unfold authenticate_body; rewrite Hc, Hm;
    cbn [String.eqb Ascii.eqb Bool.eqb]; cbv zeta;
    unfold construct_and_load, set_portalUrl;
    destruct (String.eqb (_portal_url (model w)) ""); by repeat split.
Qed.

Lemma anonymous_and_prompt_register_nothing_witness :
  portals (lib (authenticate_body 0 (fresh anonymous_model "uuid-1")))
  = [Portal Anonymous false].
Proof.
  destruct (anonymous_and_prompt_register_nothing
              (fresh anonymous_model "uuid-1") 0)
    as (_ & _ & _ & _ & P); [reflexivity|by left|].
  exact P.
Defined.
















Lemma pending_unloaded_same w w' :
  loading w' = loading w → portals (lib w') = portals (lib w) →
  pending_unloaded w → pending_unloaded w'.
Proof. unfold pending_unloaded. intros -> ->. done. Qed.

















End PortalTokenFacts.

(** ** More on the layer type dispatcher *)

Module InferNoTypeLayerBranchesFacts.
Import InferNoTypeLayer InferNoTypeLayerBranches.

Lemma class_set_id v l : class (set_id v l) = class l.
Proof. reflexivity. Qed.

Lemma class_set_prop k v l : class (set_prop k v l) = class l.
Proof. reflexivity. Qed.

Lemma class_set_opacity o l : class (set_opacity o l) = class l.
Proof. by destruct o. Qed.

Lemma class_set_definitionExpression o l :
  class (set_definitionExpression o l) = class l.
Proof. by destruct o. Qed.

Lemma class_apply_image_service_parameters e isp l :
  class (apply_image_service_parameters e isp l) = class l.
Proof.
  unfold apply_image_service_parameters.
  destruct (renderingRule isp), (mosaicRule isp), (raster isp) as [[]|];
    reflexivity.
Qed.

Create Rewrite HintDb layer_class.
#[local] Hint Rewrite class_set_id class_set_prop class_set_opacity
  class_set_definitionExpression class_apply_image_service_parameters
  : layer_class.

Ltac classed :=
  intros; repeat case_match; simplify_eq/=; autorewrite with layer_class;
  cbn; set_solver.

Lemma from_url_class c d l : from_url c d = Resolved l → class l = c.
Proof. unfold from_url. intros [= <-]. reflexivity. Qed.

Lemma imagery_class e d l :
  imagery e d = Resolved l → class l ∈ [ImageryLayer; ImageryTileLayer].
Proof. unfold imagery. classed. Qed.

Lemma wms_class d l : wms d = Resolved l → class l = WMSLayer.
Proof. unfold wms. intros; repeat case_match; by simplify_eq/=. Qed.

Lemma geojson_class e d l : geojson e d = Resolved l → class l = GeoJSONLayer.
Proof. unfold geojson. intros; repeat case_match; by simplify_eq/=. Qed.

Lemma csv_class e d l : csv e d = Resolved l → class l = CSVLayer.
Proof. unfold csv. intros; repeat case_match; by simplify_eq/=. Qed.

Lemma feature_layer_class e d l :
  feature_layer e d = Resolved l → class l = FeatureLayer.
Proof.
  unfold feature_layer.
  intros; repeat case_match; simplify_eq/=; autorewrite with layer_class;
    reflexivity.
Qed.

Lemma feature_collection_class e d fs l :
  feature_collection e d fs = Resolved l → class l = FeatureLayer.
Proof.
  unfold feature_collection. intros; repeat case_match; by simplify_eq/=.
Qed.

(** X22.  The class of a resolved layer is decided by the tag alone, a
    [featureSet] or any other field notwithstanding: for instance
    ["WebTiledLayer"] gives a [WMTSLayer] and ["WMS"] a [WMSLayer]; only
    ["ImageryLayer"] has two outcomes, and a resolved layer without a known
    tag is a [FeatureLayer]. *)
Theorem resolved_class_follows_the_tag (e : env) (d : descriptor) (l : typed_layer) :
  inferNoTypeLayer e d = Resolved l → class l ∈ classes_for (type d).
Proof.
  unfold inferNoTypeLayer. destruct (loadModules e); [|done..].
  unfold dispatch, classes_for.
  repeat match goal with
         | |- context [if ?b then _ else _] => destruct b
         end;
    intros H;
    first
      [ apply from_url_class in H; rewrite H; set_solver
      | by apply imagery_class in H
      | apply wms_class in H; rewrite H; set_solver
      | apply geojson_class in H; rewrite H; set_solver
      | apply csv_class in H; rewrite H; set_solver
      | apply feature_layer_class in H; rewrite H; set_solver
      | idtac ].
  all: destruct (featureSet d); [|done].
  all: apply feature_collection_class in H; rewrite H; set_solver.
Qed.

Lemma resolved_class_follows_the_tag_witness :
  class (set_id (JString "h1") (new WMTSLayer (Url (Some "https://host/t"))))
  ∈ [WMTSLayer].
Proof.
  apply (resolved_class_follows_the_tag InferNoTypeLayerFacts.modules_loaded
           (InferNoTypeLayerFacts.plain (Some "WebTiledLayer") "https://host/t" "h1")).
  reflexivity.
Defined.

(** X23.  A failed renderer inference is handled in two ways.  The
    ["GeoJSON"] and ["CSV"] branches swallow it and resolve a layer without
    the inferred renderer; the [FeatureLayer] branch and the feature
    collection branch reject the promise with the error of the inference. *)
Theorem renderer_failure_is_swallowed_or_passed_on
    (e : env) (d : descriptor) (err : string) :
  loadModules e = Fulfilled tt →
  (∀ l, load e l = Fulfilled tt) →
  (∀ r o, inferRenderer e r o = Failed err) →
  (∀ kv, type d = Some "GeoJSON" → data d = Some kv →
         ∃ l, inferNoTypeLayer e d = Resolved l
              ∧ class l = GeoJSONLayer ∧ props l !! "renderer" = None)
  ∧ (∀ ro, type d = Some "CSV" → drawing_renderer d = inr ro →
           inferNoTypeLayer e d
           = Resolved (set_id (_hashFromPython d) (new CSVLayer (Url (url d)))))
  ∧ (∀ o r, type d = Some "FeatureLayer" → options d = Some o →
            renderer o = Some r → truthy_renderer (Some r) = true →
            inferNoTypeLayer e d = Rejected (Error err))
  ∧ (∀ fs o ro, Forall (fun tag => tag_is (type d) tag = false) known_tags →
                featureSet d = Some fs → options d = Some o →
                drawing_renderer d = inr ro →
                inferNoTypeLayer e d = Rejected (Error err)).
Proof.
  intros Hm Hl Hr. unfold inferNoTypeLayer. rewrite Hm.
  split; [|split; [|split]].
  - intros kv Ht Hd. unfold dispatch. rewrite Ht. cbn.
    unfold geojson. rewrite Hd. destruct (renderer (top d)).
    + rewrite Hr. eexists. split; [reflexivity|]. by split.
    + eexists. split; [reflexivity|]. by split.
  - intros ro Ht Hd. unfold dispatch. rewrite Ht. cbn.
    unfold csv. by rewrite Hd, Hr.
  - intros o r Ht Ho Hre Htr. unfold dispatch. rewrite Ht. cbn.
    unfold feature_layer. rewrite Hl, Ho. cbn [fields_of]. rewrite Hre, Htr.
    cbv zeta. destruct r as [?|[[?|] ? ?]]; cbn; by rewrite Hr.
  - intros fs o ro Htags Hfs Ho Hd.
    rewrite (InferNoTypeLayerFacts.dispatch_unknown_tag e d Htags), Hfs.
    unfold feature_collection. unfold drawing_renderer in Hd.
    destruct (layerDefinition d) as [ld|] eqn:Eld; [|done].
    rewrite Ho. unfold drawing_renderer. rewrite Eld.
    destruct (drawingInfo ld) as [di|]; [|done].
    destruct (di_renderer di) as [ro'|]; [|done].
    destruct (renderer o); cbn;
      repeat match goal with
             | |- context [if ?b then _ else _] => destruct b
             end;
      by rewrite Hr.
Qed.

Lemma renderer_failure_is_swallowed_or_passed_on_witness :
  let d := {| type := Some "FeatureLayer"; url := Some "https://host/f";
              _hashFromPython := JString "h";
              capabilities := None;
              top := LayerOptions None None None None None;
              options := Some (LayerOptions None (Some (RName "ClassedColor"))
                                 None None None);
              options_assigned := false;
              sublayers := None; data := None;
              layerDefinition := None; featureSet := None |} in
  inferNoTypeLayer (renderer_fails "no such field") d
  = Rejected (Error "no such field").
Proof.
  cbv zeta.
  eapply (proj1 (proj2 (proj2
            (renderer_failure_is_swallowed_or_passed_on
               (renderer_fails "no such field") _ "no such field"
               eq_refl (fun _ => eq_refl) (fun _ _ => eq_refl)))));
    reflexivity.
Defined.

(** X24.  Fields the branches read without looking first.  Once the
    modules are loaded, a ["WMS"] descriptor without [sublayers], a
    ["GeoJSON"] descriptor without [data], a ["CSV"] descriptor without
    [layerDefinition.drawingInfo.renderer], and a feature collection
    without [layerDefinition] or without [options] are all rejected with a
    [TypeError]; none of them is resolved or left pending. *)
Theorem missing_fields_reject_with_a_type_error (e : env) (d : descriptor) :
  loadModules e = Fulfilled tt →
  (type d = Some "WMS" → sublayers d = None →
     ∃ what, inferNoTypeLayer e d = Rejected (TypeError what))
  ∧ (type d = Some "GeoJSON" → data d = None →
     ∃ what, inferNoTypeLayer e d = Rejected (TypeError what))
  ∧ (∀ what, type d = Some "CSV" → drawing_renderer d = inl (TypeError what) →
             inferNoTypeLayer e d = Rejected (TypeError what))
  ∧ (∀ fs, Forall (fun tag => tag_is (type d) tag = false) known_tags →
           featureSet d = Some fs →
           layerDefinition d = None ∨ options d = None →
           ∃ what, inferNoTypeLayer e d = Rejected (TypeError what)).
Proof.
  intros Hm. unfold inferNoTypeLayer. rewrite Hm.
  split; [|split; [|split]].
  - intros Ht Hs. unfold dispatch. rewrite Ht. cbn. unfold wms. rewrite Hs.
    by eexists.
  - intros Ht Hd. unfold dispatch. rewrite Ht. cbn. unfold geojson. rewrite Hd.
    by eexists.
  - intros what Ht Hd. unfold dispatch. rewrite Ht. cbn. unfold csv.
    by rewrite Hd.
  - intros fs Htags Hfs Hmiss.
    rewrite (InferNoTypeLayerFacts.dispatch_unknown_tag e d Htags), Hfs.
    unfold feature_collection.
    destruct (layerDefinition d) as [ld|]; [|by eexists].
    destruct Hmiss as [Hld|Ho]; [done|]. rewrite Ho. by eexists.
Qed.

Lemma missing_fields_reject_with_a_type_error_witness :
  ∃ what,
    inferNoTypeLayer InferNoTypeLayerFacts.modules_loaded
      (InferNoTypeLayerFacts.plain (Some "WMS") "https://host/wms" "h")
    = Rejected (TypeError what).
Proof.
  apply (proj1 (missing_fields_reject_with_a_type_error
                  InferNoTypeLayerFacts.modules_loaded
                  (InferNoTypeLayerFacts.plain (Some "WMS") "https://host/wms" "h")
                  eq_refl)); reflexivity.
Defined.

(** X25.  In the [FeatureLayer] branch a field of the descriptor itself
    overrides the same field of [options]: when no renderer is asked for and
    the layer loads, the resolved layer has the descriptor's [opacity] if
    there is one and the [opacity] of [options] otherwise, and the same for
    [definition_expression]; the default popup is always attached. *)
Theorem descriptor_fields_override_options
    (e : env) (d : descriptor) (o : layer_options) :
  loadModules e = Fulfilled tt →
  (∀ l, load e l = Fulfilled tt) →
  type d = Some "FeatureLayer" → options d = Some o → renderer o = None →
  ∃ l, inferNoTypeLayer e d = Resolved l
       ∧ props l !! "opacity"
         = JNumber <$> (match opacity (top d) with
                        | Some q => Some q
                        | None => opacity o
                        end)
       ∧ props l !! "definitionExpression"
         = JString <$> (match definition_expression (top d) with
                        | Some x => Some x
                        | None => definition_expression o
                        end)
       ∧ is_Some (props l !! "popupTemplate")
       ∧ props l !! "renderer" = None.
Proof.
  intros Hm Hl Ht Ho Hr. unfold inferNoTypeLayer. rewrite Hm.
  unfold dispatch. rewrite Ht. cbn. unfold feature_layer.
  rewrite Hl, Ho. cbn [fields_of]. rewrite Hr.
  eexists. split; [reflexivity|].
  unfold set_opacity, set_definitionExpression, set_prop.
  destruct (opacity o), (opacity (top d)), (definition_expression o),
    (definition_expression (top d)); cbn;
    repeat split; by simplify_map_eq.
Qed.

Lemma descriptor_fields_override_options_witness :
  let d := {| type := Some "FeatureLayer"; url := Some "https://host/f";
              _hashFromPython := JString "h";
              capabilities := None;
              top := LayerOptions None None (Some 1%Q) None None;
              options := Some (LayerOptions None None (Some 0%Q) None None);
              options_assigned := false;
              sublayers := None; data := None;
              layerDefinition := None; featureSet := None |} in
  ∃ l, inferNoTypeLayer (renderer_fails "unused") d = Resolved l
       ∧ props l !! "opacity" = Some (JNumber 1%Q).
Proof.
  cbv zeta.
  destruct (descriptor_fields_override_options (renderer_fails "unused")
              {| type := Some "FeatureLayer"; url := Some "https://host/f";
                 _hashFromPython := JString "h";
                 capabilities := None;
                 top := LayerOptions None None (Some 1%Q) None None;
                 options := Some (LayerOptions None None (Some 0%Q) None None);
                 options_assigned := false;
                 sublayers := None; data := None;
                 layerDefinition := None; featureSet := None |}
              (LayerOptions None None (Some 0%Q) None None))
    as (l & R & O & _); [reflexivity|done|reflexivity|reflexivity|reflexivity|].
  exists l. split; [exact R|exact O].
Defined.

(** X31.  An imagery layer listed in [layers] needs the [options] of the
    descriptor that lists it.  [add_notype_layer] assigns those [options] to
    every element of [layers]; when the descriptor has none, an element
    tagged ["ImageryLayer"] that is not tiles-only is rejected with a
    [TypeError] once the modules are loaded, although the same element
    handed over on its own, without [options], is resolved. *)
Theorem imagery_among_layers_needs_options
    (e : env) (d : descriptor) (ls : list descriptor) (l0 : descriptor) :
  loadModules e = Fulfilled tt → options d = None → l0 ∈ ls →
  type l0 = Some "ImageryLayer" → tag_is (capabilities l0) "tilesOnly" = false →
  ∃ l, l ∈ layersToInfer d (Some ls)
       ∧ url l = url l0 ∧ _hashFromPython l = _hashFromPython l0
       ∧ (∃ what, inferNoTypeLayer e l = Rejected (TypeError what))
       ∧ (options l0 = None → options_assigned l0 = false →
          layersToInfer l0 None = [l0]
          ∧ inferNoTypeLayer e l0
            = Resolved (set_id (_hashFromPython l0)
                          (new ImageryLayer (Url (url l0))))).
Proof.
  intros Hm Ho Hin Ht Hc. exists (assign_options None l0).
  split.
  { unfold layersToInfer. rewrite Ho. apply list_elem_of_fmap. by exists l0. }
  split; [done|]. split; [done|].
  unfold inferNoTypeLayer. rewrite Hm. unfold dispatch. cbv zeta.
  split.
  - cbn [type assign_options]. rewrite Ht. cbn [tag_is String.eqb Ascii.eqb Bool.eqb].
    unfold imagery. cbn [capabilities assign_options]. rewrite Hc.
    cbv zeta. unfold options_in. cbn. by eexists.
  - intros Hno Hna. split; [done|]. rewrite Ht.
    cbn [tag_is String.eqb Ascii.eqb Bool.eqb].
    unfold imagery. rewrite Hc. cbv zeta. unfold options_in.
    by rewrite Hno, Hna.
Qed.

Lemma imagery_among_layers_needs_options_witness :
  let l0 := InferNoTypeLayerFacts.plain (Some "ImageryLayer") "https://host/i" "h" in
  ∃ l, l ∈ layersToInfer (InferNoTypeLayerFacts.plain None "" "g") (Some [l0])
       ∧ ∃ what, inferNoTypeLayer (renderer_fails "unused") l
                 = Rejected (TypeError what).
Proof.
  cbv zeta.
  destruct (imagery_among_layers_needs_options (renderer_fails "unused")
              (InferNoTypeLayerFacts.plain None "" "g")
              [InferNoTypeLayerFacts.plain (Some "ImageryLayer") "https://host/i" "h"]
              (InferNoTypeLayerFacts.plain (Some "ImageryLayer") "https://host/i" "h"))
    as (l & Hl & _ & _ & R & _);
    [reflexivity|reflexivity|left|reflexivity|reflexivity|].
  exists l. by split.
Defined.

End InferNoTypeLayerBranchesFacts.

(** ** The time slider handlers ([time_mode_changed], [start_time_changed],
    [end_time_changed]) *)

Module TimeSliderFacts.
Import TimeSlider.
Local Open Scope nat_scope.

Definition sample (vs : option (list (option date))) (m : string) : widget :=
  {| time_slider := true; time_mode := m;
     _writeonly_start_time := "2020-01-01"; _writeonly_end_time := "2020-12-31";
     mode := "time-window"; values := vs;
     page := ErrorSinkFacts.quiet |}.

Ltac fits :=
  repeat split; try done;
  try (intros [H|H]; first [discriminate H | done]);
  try (intros n [= <-] Hlen; cbn in Hlen;
       first [ lia
             | eexists; split; [first [reflexivity | eassumption]|]; by split ]);
  try (intros n H; discriminate H).

(** X26.  [time_mode_changed] makes the slider's values fit the new mode.
    With the slider switched on and one or two values, a known mode leaves
    as many values as the mode works with, the first value being kept:
    one for ["instant"] and the two cumulative modes, two for
    ["time-window"] (a single value is doubled).  An unknown mode or an
    empty array leaves the values as they are, and with the slider switched
    off the handler does nothing. *)
Theorem time_mode_changed_fits_the_values
    (w : widget) (vs : list (option date)) :
  (time_slider w = false → time_mode_changed w = w)
  ∧ (time_slider w = true → values w = Some vs →
     mode (time_mode_changed w) = time_mode w
     ∧ page (time_mode_changed w) = page w
     ∧ (arity (time_mode w) = None ∨ vs = [] →
        values (time_mode_changed w) = Some vs)
     ∧ (∀ n, arity (time_mode w) = Some n → 1 ≤ length vs ≤ 2 →
             ∃ vs', values (time_mode_changed w) = Some vs'
                    ∧ length vs' = n ∧ first vs' = first vs)).
Proof.
  split; [intros H; unfold time_mode_changed; by rewrite H|].
  intros Hon Hv. unfold time_mode_changed, arity. rewrite Hon, Hv. cbv zeta.
  remember (time_mode w) as m eqn:Hm. clear Hm.
  destruct (String.eqb m "instant") eqn:E1.
  { apply String.eqb_eq in E1. subst m.
    destruct vs as [|v0 [|v1 [|v2 vs]]]; cbn; fits. }
  destruct (String.eqb m "time-window") eqn:E2.
  { apply String.eqb_eq in E2. subst m.
    destruct vs as [|v0 [|v1 [|v2 vs]]]; cbn; fits. }
  destruct (String.eqb m "cumulative-from-start") eqn:E3.
  { apply String.eqb_eq in E3. subst m.
    destruct vs as [|v0 [|v1 [|v2 vs]]]; cbn; fits. }
  destruct (String.eqb m "cumulative-from-end") eqn:E4.
  { apply String.eqb_eq in E4. subst m.
    destruct vs as [|v0 [|v1 [|v2 vs]]]; cbn; fits. }
  destruct (0 <? length vs); fits.
Qed.

Lemma time_mode_changed_fits_the_values_witness :
  values (time_mode_changed
            (sample (Some [Some (DateOf "2020-01-01")]) "time-window"))
  = Some [Some (DateOf "2020-01-01"); Some (DateOf "2020-01-01")].
Proof.
  destruct (time_mode_changed_fits_the_values
              (sample (Some [Some (DateOf "2020-01-01")]) "time-window")
              [Some (DateOf "2020-01-01")]) as [_ H].
  destruct (H eq_refl eq_refl) as (_ & _ & _ & A).
  destruct (A 2 eq_refl) as (vs' & E & _); [cbn; lia|].
  rewrite E. vm_compute in E. by injection E as <-.
Defined.

(** X27.  Start time and end time on a slider that has an array of
    values.  [end_time_changed] always leaves two values, and setting the
    end and then the start gives [start; end] whatever the array was.
    Setting the start first gives the same when the slider had one or two
    values; on an empty array [start_time_changed] does nothing, so that the
    start is lost and the first value is left undefined.  None of this
    reports to the error sink. *)
Theorem start_and_end_times (w : widget) (vs : list (option date)) :
  values w = Some vs →
  let start := Some (DateOf (_writeonly_start_time w)) in
  let finish := Some (DateOf (_writeonly_end_time w)) in
  values (end_time_changed w) = Some [first vs; finish]
  ∧ values (start_time_changed (end_time_changed w)) = Some [start; finish]
  ∧ (length vs = 1 ∨ length vs = 2 →
     values (end_time_changed (start_time_changed w)) = Some [start; finish])
  ∧ (vs = [] →
     start_time_changed w = w
     ∧ values (end_time_changed (start_time_changed w)) = Some [None; finish])
  ∧ page (start_time_changed (end_time_changed w)) = page w
  ∧ page (end_time_changed (start_time_changed w)) = page w.
Proof.
  intros Hv. cbv zeta.
  assert (E : end_time_changed w
              = set_values [first vs; Some (DateOf (_writeonly_end_time w))] w).
  { unfold end_time_changed. by rewrite Hv. }
  assert (S : start_time_changed w
              = match vs with
                | [_] => set_values [Some (DateOf (_writeonly_start_time w))] w
                | [_; v1] =>
                    set_values [Some (DateOf (_writeonly_start_time w)); v1] w
                | _ => w
                end).
  { unfold start_time_changed. rewrite Hv.
    destruct vs as [|v0 [|v1 [|v2 vs]]]; cbn; rewrite ?Hv; done. }
  rewrite E, S.
  split; [done|]. split; [done|].
  destruct vs as [|v0 [|v1 [|v2 vs]]]; unfold end_time_changed; cbn;
    rewrite ?Hv; cbn.
  - split; [intros [H|H]; discriminate H|]. by repeat split.
  - by repeat split.
  - by repeat split.
  - split; [intros [H|H]; discriminate H|]. by repeat split.
Qed.

Lemma start_and_end_times_witness :
  values (end_time_changed (start_time_changed
            (sample (Some [Some (DateOf "2019-06-01")]) "time-window")))
  = Some [Some (DateOf "2020-01-01"); Some (DateOf "2020-12-31")].
Proof.
  destruct (start_and_end_times
              (sample (Some [Some (DateOf "2019-06-01")]) "time-window")
              [Some (DateOf "2019-06-01")] eq_refl) as (_ & _ & H & _).
  apply H. by left.
Defined.

(** X28.  While the slider's [values] is still [null], each of the three
    handlers fails on reading it: the [catch] block reports the handler's
    own message to the error sink, [values] stays [null], and
    [time_mode_changed] has by then already set the slider's mode. *)
Theorem null_values_are_reported (w : widget) :
  values w = None → ErrorSink.textContent (page w) = "" →
  (time_slider w = true →
     values (time_mode_changed w) = None
     ∧ mode (time_mode_changed w) = time_mode w
     ∧ ErrorSink.textContent (page (time_mode_changed w))
       = "Error while updating time mode See the browser console for more info.")
  ∧ values (start_time_changed w) = None
  ∧ ErrorSink.textContent (page (start_time_changed w))
    = "Error while changing `start_time` See the browser console for more info."
  ∧ values (end_time_changed w) = None
  ∧ ErrorSink.textContent (page (end_time_changed w))
    = "Error while changing `end_time` See the browser console for more info.".
Proof.
  intros Hv Hq.
  assert (R : ∀ shown logged w',
             page w' = page w →
             ErrorSink.textContent (page (caught shown logged w'))
             = ErrorSink.decorate (Some shown) true).
  { intros shown logged w' Hp. unfold caught, ErrorSink.warn. cbn [page ErrorSink.textContent].
    unfold ErrorSink.report. rewrite Hp.
    by destruct (ErrorSinkBurstsFacts.report_on_quiet (Some shown) true (page w) Hq). }
  unfold time_mode_changed, start_time_changed, end_time_changed.
  rewrite Hv.
  split; [intros ->; split; [done|]; split; [done|]; by rewrite R|].
  split; [done|]. split; [by rewrite R|]. split; [done|]. by rewrite R.
Qed.

Lemma null_values_are_reported_witness :
  ErrorSink.textContent (page (end_time_changed (sample None "instant")))
  = "Error while changing `end_time` See the browser console for more info.".
Proof.
  destruct (null_values_are_reported (sample None "instant") eq_refl eq_refl)
    as (_ & _ & _ & _ & E).
  exact E.
Defined.

End TimeSliderFacts.
